(** * SafeLoRA utilities ([peft/utils/safelora.py]): a shallow embedding

    The development follows the Python module top to bottom:

    - [Py]        the fragment of Python the module relies on: exceptions,
                  string operations, insertion-ordered dictionaries, slices;
    - [Torch]     the interface of the tensor library (torch, numpy) as a
                  type class, so that every theorem holds for any tensor
                  arithmetic, IEEE or exact;
    - [SafeLora]  [SafeLoraConfig], [SafetensorLoader], [get_aligned_matrix],
                  [project_weights] and [apply_safelora];
    - [Exact]     an instance of [Torch] over the rationals, on which the
                  examples are evaluated. *)

From Stdlib Require Import List String Ascii ZArith QArith Qround Bool Lia.
Import ListNotations.
Local Close Scope Q_scope.
Local Open Scope string_scope.
Local Open Scope list_scope.

Set Implicit Arguments.

(* ================================================================== *)
(** ** Python fragment *)
(* ================================================================== *)

Module Py.

(** Exceptions raised by the module or by the libraries it calls.  Only the
    class matters; messages are dropped. *)
Inductive exn : Type :=
| ValueError
| TypeError
| RuntimeError          (* also what torch raises on ill-shaped operands *)
| OSError
| FileNotFoundError     (* a subclass of OSError *)
| SafetensorError
| AttributeError
| KeyError
| IndexError
| AssertionError
| UnboundLocalError.

(** [except OSError] catches the class and its subclasses. *)
Definition is_OSError (e : exn) : bool :=
  match e with
  | OSError | FileNotFoundError => true
  | _ => false
  end.

(** A computation either returns a value or raises. *)
Inductive result (A : Type) : Type :=
| Ok (a : A)
| Raise (e : exn).
Arguments Ok {A} a.
Arguments Raise {A} e.

Definition bind {A B} (m : result A) (k : A -> result B) : result B :=
  match m with
  | Ok a => k a
  | Raise e => Raise e
  end.

Definition returns {A} (m : result A) : bool :=
  match m with Ok _ => true | Raise _ => false end.

Definition of_option {A} (e : exn) (o : option A) : result A :=
  match o with Some a => Ok a | None => Raise e end.

(** An attribute of an object: set, or never assigned ([obj.x] then raises
    AttributeError). *)
Inductive attr (A : Type) : Type :=
| Absent
| Present (a : A).
Arguments Absent {A}.
Arguments Present {A} a.

Definition getattr {A} (x : attr A) : result A :=
  match x with Present a => Ok a | Absent => Raise AttributeError end.

(** *** Strings *)

(** [sub in s] *)
Fixpoint str_in (sub s : string) : bool :=
  String.prefix sub s ||
  match s with
  | EmptyString => false
  | String _ s' => str_in sub s'
  end.

(** [s.endswith(suffix)] *)
Definition endswith (s suffix : string) : bool :=
  let n := String.length s in
  let m := String.length suffix in
  (m <=? n)%nat && String.eqb (String.substring (n - m) m s) suffix.

(** [s[n:]] *)
Fixpoint str_drop (n : nat) (s : string) : string :=
  match n, s with
  | O, _ => s
  | S n', String _ s' => str_drop n' s'
  | S _, EmptyString => EmptyString
  end.

Definition sep : ascii := "/"%char.

(** Splitting at the last separator: [rsplit s = Some (head, tail)] when
    [s = head ++ "/" ++ tail] and [tail] holds no separator. *)
Fixpoint rsplit (s : string) : option (string * string) :=
  match s with
  | EmptyString => None
  | String c s' =>
      match rsplit s' with
      | Some (h, t) => Some (String c h, t)
      | None => if Ascii.eqb c sep then Some (EmptyString, s') else None
      end
  end.

(** [s.rpartition(os.path.sep)[0]] *)
Definition rpartition_head (s : string) : string :=
  match rsplit s with Some (h, _) => h | None => EmptyString end.

(** [s.rpartition(os.path.sep)[-1]] *)
Definition rpartition_tail (s : string) : string :=
  match rsplit s with Some (_, t) => t | None => s end.

(** [os.path.join(a, b)] on a POSIX system. *)
Definition path_join (a b : string) : string :=
  if String.prefix "/" b then b
  else if String.eqb a EmptyString || endswith a "/" then a ++ b
  else a ++ "/" ++ b.

(** *** Dictionaries

    A [dict] keeps its keys in insertion order and the module depends on
    that order (the [lora_A] and [lora_B] names are paired by position), so
    a dictionary is an association list whose keys are pairwise distinct. *)
Section Dict.
Variable V : Type.

Definition dict := list (string * V).

Definition keys (d : dict) : list string := map fst d.

Definition wf (d : dict) : Prop := NoDup (keys d).

(** [d[k]] *)
Fixpoint get (d : dict) (k : string) : option V :=
  match d with
  | [] => None
  | (k', v) :: d' => if String.eqb k' k then Some v else get d' k
  end.

Definition getitem (d : dict) (k : string) : result V :=
  of_option KeyError (get d k).

(** [d[k] = v]: an existing key keeps its position, a new one goes last. *)
Fixpoint setitem (d : dict) (k : string) (v : V) : dict :=
  match d with
  | [] => [(k, v)]
  | (k', v') :: d' =>
      if String.eqb k' k then (k', v) :: d' else (k', v') :: setitem d' k v
  end.

(** [{k: v for (k, v) in items}] *)
Definition of_items (items : list (string * V)) : dict :=
  fold_left (fun d kv => setitem d (fst kv) (snd kv)) items [].
End Dict.

(** *** Sequences *)

(** [l[:k]] for a Python integer [k]: a negative bound counts from the end,
    and a bound past either end is clamped. *)
Definition slice_to {A} (l : list A) (k : Z) : list A :=
  if (0 <=? k)%Z then firstn (Z.to_nat k) l
  else firstn (List.length l - Z.to_nat (- k)) l.

(** [l[-1]] *)
Definition last_item {A} (l : list A) : result A :=
  of_option IndexError (nth_error l (List.length l - 1)).

(** [l[i]] for [i >= 0] *)
Definition index {A} (l : list A) (i : nat) : result A :=
  of_option IndexError (nth_error l i).

End Py.

Declare Scope py_scope.
Delimit Scope py_scope with py.
Notation "x <- m ;; k" := (Py.bind m (fun x => k))
  (at level 61, m at next level, right associativity) : py_scope.
Notation "' p <- m ;; k" := (Py.bind m (fun p => k))
  (at level 61, p pattern, m at next level, right associativity) : py_scope.

Local Open Scope py_scope.
Import Py.

(* ================================================================== *)
(** ** The tensor library *)
(* ================================================================== *)

(** What the module uses of torch and numpy.  Tensors and Python floats are
    kept abstract: the control flow of the module never looks inside a
    tensor, it only moves tensors around and compares rounded scores.  An
    operation that torch rejects for some operands (ill-matched shapes, an
    unknown device) returns a [result]. *)
Class Torch : Type := {
  tensor : Type;
  pyfloat : Type;
  (** [x.shape] *)
  shape : tensor -> list nat;
  (** [x.to(device)] *)
  to_device : string -> tensor -> result tensor;
  (** [x.to(torch.float32)] and [x.to(torch.bfloat16)] *)
  to_float32 : tensor -> tensor;
  to_bfloat16 : tensor -> tensor;
  (** [x - y] *)
  tsub : tensor -> tensor -> result tensor;
  (** [x.t()] *)
  transpose : tensor -> result tensor;
  (** [torch.mm(x, y)] *)
  mm : tensor -> tensor -> result tensor;
  (** [torch.norm(x)], a zero-dimensional tensor *)
  norm : tensor -> tensor;
  (** [x / y] *)
  tdiv : tensor -> tensor -> result tensor;
  (** [x.detach().cpu()] *)
  detach_cpu : tensor -> tensor;
  (** [x.reshape(1, -1)] *)
  reshape_row : tensor -> tensor;
  (** [torch.nn.functional.cosine_similarity(x, y)] *)
  cosine_similarity : tensor -> tensor -> result tensor;
  (** [x.item()] *)
  item : tensor -> result pyfloat;
  (** [numpy.round(x, 5)] *)
  round5 : pyfloat -> pyfloat;
  (** [x <= y] on floats *)
  float_le : pyfloat -> pyfloat -> bool;
  (** [1 + x] and [1 / x] *)
  one_plus : tensor -> tensor;
  one_over : tensor -> tensor
}.

(* ================================================================== *)
(** ** The module *)
(* ================================================================== *)

Module SafeLora.
Section WithTorch.
Context `{Torch}.

(** *** [SafeLoraConfig] *)

(** The dataclass.  A path is [None] when the caller leaves it out.  The
    last field is not declared by the dataclass: it stands for an instance
    attribute [saveWeights], which [apply_safelora] reads; it is [Absent] on
    every object the constructor returns and [Present] only when a caller
    assigns it on the instance. *)
Record SafeLoraConfig : Type := {
  base_model_path : option string;
  aligned_model_path : option string;
  peft_model_path : option string;
  select_layers_type : string;
  threshold : pyfloat;
  num_proj_layers : Z;
  devices : string;
  save_weights : bool;
  saveWeights : attr bool
}.

Definition __post_init__ (self : SafeLoraConfig) : result unit :=
  match base_model_path self with
  | None => Raise ValueError
  | Some _ =>
      match aligned_model_path self with
      | None => Raise ValueError
      | Some _ =>
          match peft_model_path self with
          | None => Raise ValueError
          | Some _ => Ok tt
          end
      end
  end.

(** [SafeLoraConfig(base_model_path=..., ...)]: the generated [__init__]
    stores the fields and calls [__post_init__]. *)
Definition SafeLoraConfig_new
    (base aligned peft : option string) (select : string) (thr : pyfloat)
    (num : Z) (dev : string) (save : bool) : result SafeLoraConfig :=
  let self := {| base_model_path := base; aligned_model_path := aligned;
                 peft_model_path := peft; select_layers_type := select;
                 threshold := thr; num_proj_layers := num; devices := dev;
                 save_weights := save; saveWeights := Absent |} in
  _ <- __post_init__ self;;
  Ok self.

(** [configs.threshold = thrs] *)
Definition set_threshold (c : SafeLoraConfig) (thrs : pyfloat) : SafeLoraConfig :=
  {| base_model_path := base_model_path c;
     aligned_model_path := aligned_model_path c;
     peft_model_path := peft_model_path c;
     select_layers_type := select_layers_type c;
     threshold := thrs;
     num_proj_layers := num_proj_layers c;
     devices := devices c;
     save_weights := save_weights c;
     saveWeights := saveWeights c |}.

(** *** The outside world

    Files and the model hub, as the module observes them.  Only
    [save_file] changes it. *)
Record World : Type := {
  (** [os.path.exists(p)] *)
  path_exists : string -> bool;
  (** [snapshot_download(repo_id=p, force_download=True)]; the snapshot
      goes to the hub cache, which no path query below inspects *)
  snapshot_download : string -> result unit;
  (** [get_checkpoint_shard_files(d, cached_file(d, "model.safetensors.index.json"))]:
      the shard files and the [weight_map] of the index *)
  checkpoint_shard_files : string -> result (list string * dict string);
  (** [safe_open(p, ...)]: the tensors stored in the file *)
  safetensors : string -> result (dict tensor);
  (** [json.load(open(p))], restricted to the entry the module reads: the
      [target_modules] list, [None] when the key is missing *)
  json_target_modules : string -> result (option (list string))
}.

(** [save_file(tensors, p)] *)
Definition save_file (w : World) (tensors : dict tensor) (p : string) : World :=
  {| path_exists := fun q => String.eqb q p || path_exists w q;
     snapshot_download := snapshot_download w;
     checkpoint_shard_files := checkpoint_shard_files w;
     safetensors := fun q => if String.eqb q p then Ok tensors else safetensors w q;
     json_target_modules := json_target_modules w |}.

(** *** [SafetensorLoader] *)

(** The attributes [__init__] assigns, and [base_model_prefix], which
    [get_tensor] reads and no method assigns. *)
Record SafetensorLoader : Type := {
  model_path : string;
  is_sharded : bool;
  weight_map : option (dict string);
  base_model_prefix : attr (option string)
}.

Definition suffix : string := "model.safetensors".

(** [{k: file_map[v] for k, v in sharded_metadata["weight_map"].items()}] *)
Fixpoint build_weight_map (file_map : dict string) (items : list (string * string))
  : result (dict string) :=
  match items with
  | [] => Ok []
  | (k, v) :: rest =>
      f <- getitem file_map v;;
      rest' <- build_weight_map file_map rest;;
      Ok ((k, f) :: rest')
  end.

Definition SafetensorLoader_init (w : World) (model_path0 : option string)
  : result SafetensorLoader :=
  match model_path0 with
  | None => Raise ValueError
  | Some model_path0 =>
      _ <- (if path_exists w model_path0 then Ok tt
            else match snapshot_download w model_path0 with
                 | Ok _ => Ok tt
                 | Raise _ => Raise RuntimeError
                 end);;
      let model_path1 :=
        if negb (endswith model_path0 suffix) then path_join model_path0 suffix
        else model_path0 in
      if negb (path_exists w model_path1) then
        (* check if the file is sharded *)
        let par_dir := rpartition_head model_path1 in
        match checkpoint_shard_files w par_dir with
        | Raise e => if is_OSError e then Raise FileNotFoundError else Raise e
        | Ok (resolved_archive_file, sharded_weight_map) =>
            let file_map :=
              of_items (map (fun k => (rpartition_tail k, k)) resolved_archive_file) in
            wm <- build_weight_map file_map sharded_weight_map;;
            Ok {| model_path := model_path1; is_sharded := true;
                  weight_map := Some wm; base_model_prefix := Absent |}
        end
      else
        Ok {| model_path := model_path1; is_sharded := false;
              weight_map := None; base_model_prefix := Absent |}
  end.

(** Lines 106-108 on their own: the path [__init__] stores in
    [self.model_path]. *)
Definition normalized_path (model_path0 : string) : string :=
  if negb (endswith model_path0 suffix) then path_join model_path0 suffix
  else model_path0.

(** [f.get_tensor(name)] on an open safetensors file *)
Definition file_get_tensor (f : dict tensor) (name : string) : result tensor :=
  of_option SafetensorError (get f name).

(** Truth value of [self.base_model_prefix] *)
Definition truthy (p : option string) : bool :=
  match p with
  | None => false
  | Some s => negb (String.eqb s EmptyString)
  end.

Definition prefix_len (p : option string) : nat :=
  match p with None => 0 | Some s => String.length s end.

(** Lines 132-135: the file that holds [name]. *)
Definition file_path_of (self : SafetensorLoader) (name : string) : result string :=
  if negb (is_sharded self) then Ok (model_path self)
  else match weight_map self with
       | None => Raise TypeError
       | Some wm => getitem wm name
       end.

Definition get_tensor (w : World) (self : SafetensorLoader) (name : string)
  : result tensor :=
  file_path <- file_path_of self name;;
  f <- safetensors w file_path;;
  match file_get_tensor f name with
  | Ok tensor => Ok tensor
  | Raise SafetensorError =>
      (* no matching key found, we probably need to remove the base model prefix *)
      p <- getattr (base_model_prefix self);;
      if truthy p then
        (* remove 1 extra character for "." *)
        file_get_tensor f (str_drop (prefix_len p + 1) name)
      else Raise SafetensorError
  | Raise e => Raise e
  end.

(** *** [get_aligned_matrix] *)

(** The adapter configuration read from [adapter_config.json]. *)
Record PeftConfig : Type := { target_modules : option (list string) }.

(** [peft_config["target_modules"]] *)
Definition get_target_modules (peft_config : PeftConfig) : result (list string) :=
  of_option KeyError (target_modules peft_config).

(** [[name for name in names if any(v in name for v in list(peft_config["target_modules"]))]]:
    the subscript is evaluated once per name. *)
Fixpoint select_names (peft_config : PeftConfig) (names : list string)
  : result (list string) :=
  match names with
  | [] => Ok []
  | name :: rest =>
      tm <- get_target_modules peft_config;;
      rest' <- select_names peft_config rest;;
      Ok (if existsb (fun v => str_in v name) tm then name :: rest' else rest')
  end.

(** [sl.weight_map.keys()] *)
Definition weight_map_keys (sl : SafetensorLoader) : result (list string) :=
  match weight_map sl with
  | None => Raise AttributeError
  | Some wm => Ok (keys wm)
  end.

Definition shape_eqb (s1 s2 : list nat) : bool :=
  if list_eq_dec Nat.eq_dec s1 s2 then true else false.

(** One turn of the loop of [get_aligned_matrix]. *)
Definition align_pair (w : World) (sl_base sl_align : SafetensorLoader)
    (devices : string) (name_base name_align : string) : result tensor :=
  b <- get_tensor w sl_base name_base;;
  a <- get_tensor w sl_align name_align;;
  _ <- (if shape_eqb (shape b) (shape a) then Ok tt else Raise AssertionError);;
  b <- get_tensor w sl_base name_base;;
  a <- get_tensor w sl_align name_align;;
  vec <- tsub b a;;
  vec <- to_device devices vec;;
  let vec := if String.eqb devices "cpu" then to_float32 vec else vec in
  vt <- transpose vec;;
  prod <- mm vec vt;;
  vec <- tdiv prod (norm vec);;
  Ok (detach_cpu vec).

Fixpoint align_loop (w : World) (sl_base sl_align : SafetensorLoader)
    (devices : string) (pairs : list (string * string)) (v : list tensor)
  : result (list tensor) :=
  match pairs with
  | [] => Ok v
  | (name_base, name_align) :: rest =>
      vec <- align_pair w sl_base sl_align devices name_base name_align;;
      align_loop w sl_base sl_align devices rest (v ++ [vec])
  end.

Definition get_aligned_matrix (w : World)
    (base_model_path aligned_model_path : option string) (devices : string)
    (peft_config : PeftConfig) : result (list tensor) :=
  sl_align <- SafetensorLoader_init w aligned_model_path;;
  sl_base <- SafetensorLoader_init w base_model_path;;
  base_keys <- weight_map_keys sl_base;;
  base <- select_names peft_config base_keys;;
  align_keys <- weight_map_keys sl_align;;
  align <- select_names peft_config align_keys;;
  align_loop w sl_base sl_align devices (combine base align) [].

(** *** [project_weights] *)

(** The dictionary handed to [project_weights] is a mutable object shared
    with the caller: objects live in a heap and are passed by address. *)
Definition loc := nat.
Definition Heap := loc -> dict tensor.

Definition upd (h : Heap) (l : loc) (d : dict tensor) : Heap :=
  fun l' => if Nat.eqb l' l then d else h l'.

(** [[name for name in d.keys() if pat in name]] *)
Definition names_with (pat : string) (d : dict tensor) : list string :=
  filter (fun name => str_in pat name) (keys d).

(** The local variables of the loop. *)
Record Locals : Type := {
  idx : nat;
  i : nat;
  dis : list pyfloat;
  cos_total : list pyfloat
}.

(** [P], as cast for the device in use. *)
Definition cast_P (configs : SafeLoraConfig) (P : tensor) : result tensor :=
  if negb (String.eqb (devices configs) "cpu")
  then to_device (devices configs) (to_bfloat16 P)
  else to_device "cpu" P.

(** Lines 186-195: the candidate [W] and the rounded score [cos].  It
    reads the copy [ori_peft_weights] only. *)
Definition candidate (configs : SafeLoraConfig) (ori_peft_weights : dict tensor)
    (v : list tensor) (idx : nat) (name_A name_B : string)
  : result (tensor * pyfloat) :=
  A <- getitem ori_peft_weights name_A;;
  P <- index v idx;;
  P <- cast_P configs P;;
  B <- getitem ori_peft_weights name_B;;
  W <- mm P B;;
  fW <- mm W A;;
  B <- getitem ori_peft_weights name_B;;
  ori <- mm B A;;
  c <- cosine_similarity (reshape_row fW) (reshape_row ori);;
  c <- item c;;
  Ok (W, round5 c).

(** Lines 197-201: which tensor is stored under [name_B], and the new
    value of the counter [i]. *)
Definition selected (configs : SafeLoraConfig) (ori_peft_weights : dict tensor)
    (name_B : string) (W : tensor) (cos : pyfloat) (i : nat)
  : result (nat * tensor) :=
  if float_le cos (threshold configs) then Ok (S i, W)
  else B <- getitem ori_peft_weights name_B;; Ok (i, B).

(** Lines 203-205: [1 / (1 + torch.norm(cur - W))] on the flattened
    tensors, [cur] being what is now stored under [name_B]. *)
Definition distance_of (cur W : tensor) : result pyfloat :=
  d <- tsub (reshape_row cur) (reshape_row W);;
  item (one_over (one_plus (norm d))).

Definition distance (peft_weights : dict tensor) (name_B : string) (W : tensor)
  : result pyfloat :=
  cur <- getitem peft_weights name_B;;
  distance_of cur W.

(** One turn of the loop.  An exception leaves the heap as it is at that
    point. *)
Definition project_step (configs : SafeLoraConfig) (ori_peft_weights : dict tensor)
    (v : list tensor) (peft_weights : loc) (name_A name_B : string)
    (s : Locals) (h : Heap) : Heap * result Locals :=
  match candidate configs ori_peft_weights v (idx s) name_A name_B with
  | Raise e => (h, Raise e)
  | Ok (W, cos) =>
      let cos_total' := cos_total s ++ [cos] in
      match selected configs ori_peft_weights name_B W cos (i s) with
      | Raise e => (h, Raise e)
      | Ok (i', new_B) =>
          let h' := upd h peft_weights (setitem (h peft_weights) name_B new_B) in
          match distance (h' peft_weights) name_B W with
          | Raise e => (h', Raise e)
          | Ok dist =>
              (h', Ok {| idx := S (idx s); i := i';
                         dis := dis s ++ [dist]; cos_total := cos_total' |})
          end
      end
  end.

Fixpoint project_loop (configs : SafeLoraConfig) (ori_peft_weights : dict tensor)
    (v : list tensor) (peft_weights : loc) (pairs : list (string * string))
    (s : Locals) (h : Heap) : Heap * result Locals :=
  match pairs with
  | [] => (h, Ok s)
  | (name_A, name_B) :: rest =>
      match project_step configs ori_peft_weights v peft_weights name_A name_B s h with
      | (h', Raise e) => (h', Raise e)
      | (h', Ok s') => project_loop configs ori_peft_weights v peft_weights rest s' h'
      end
  end.

(** [project_weights(configs, peft_weights, v)]: the heap after the call,
    and the returned pair (the address it was given, the scores). *)
Definition project_weights (configs : SafeLoraConfig) (peft_weights : loc)
    (v : list tensor) (h : Heap) : Heap * result (loc * list pyfloat) :=
  let ori_peft_weights := h peft_weights in   (* copy.deepcopy *)
  let names_A := names_with "lora_A" (h peft_weights) in
  let names_B := names_with "lora_B" (h peft_weights) in
  match project_loop configs ori_peft_weights v peft_weights
          (combine names_A names_B)
          {| idx := 0; i := 0; dis := []; cos_total := [] |} h with
  | (h', Raise e) => (h', Raise e)
  | (h', Ok s) => (h', Ok (peft_weights, cos_total s))
  end.

(** *** Inputs on which [project_weights] returns

    A layer is valid when the tensor operations of its turn succeed: the
    candidate and its score, and the distance to whichever tensor the
    selection stores. *)
Definition layer_valid (configs : SafeLoraConfig) (d : dict tensor)
    (v : list tensor) (idx : nat) (name_A name_B : string) : bool :=
  match candidate configs d v idx name_A name_B with
  | Raise _ => false
  | Ok (W, cos) =>
      match selected configs d name_B W cos 0 with
      | Raise _ => false
      | Ok (_, new_B) => returns (distance_of new_B W)
      end
  end.

Fixpoint layers_valid (configs : SafeLoraConfig) (d : dict tensor)
    (v : list tensor) (pairs : list (string * string)) (idx : nat) : bool :=
  match pairs with
  | [] => true
  | (name_A, name_B) :: rest =>
      layer_valid configs d v idx name_A name_B &&
      layers_valid configs d v rest (S idx)
  end.

(** The layers of a dictionary: its [lora_A] and [lora_B] names, paired
    in order. *)
Definition layers (d : dict tensor) : list (string * string) :=
  combine (names_with "lora_A" d) (names_with "lora_B" d).

Definition valid_inputs (configs : SafeLoraConfig) (d : dict tensor)
    (v : list tensor) : bool :=
  layers_valid configs d v (layers d) 0.

(** *** [apply_safelora] *)

(** The order of [numpy.sort]: ascending, a NaN (the one float that is not
    [<=] itself) after every number. *)
Definition is_nan (x : pyfloat) : bool := negb (float_le x x).

Definition np_le (x y : pyfloat) : bool :=
  if is_nan x then is_nan y else float_le x y || is_nan y.

(** [numpy.sort(cos)], by insertion. *)
Fixpoint np_insert (x : pyfloat) (l : list pyfloat) : list pyfloat :=
  match l with
  | [] => [x]
  | y :: l' => if np_le x y then x :: l else y :: np_insert x l'
  end.

Definition np_sort (l : list pyfloat) : list pyfloat :=
  fold_right np_insert [] l.

(** [x <= y] holds. *)
Definition le_true (x y : pyfloat) : Prop := float_le x y = true.

(** [os.path.join(configs.peft_model_path, file)] *)
Definition peft_file (configs : SafeLoraConfig) (file : string) : result string :=
  match peft_model_path configs with
  | None => Raise TypeError
  | Some p => Ok (path_join p file)
  end.

(** [{name: f.get_tensor(name).to(dtype) for name in f.keys()}] on a file
    opened with [device=devices] *)
Fixpoint load_adapter (devices : string) (f : dict tensor) : result (dict tensor) :=
  match f with
  | [] => Ok []
  | (name, t) :: rest =>
      t <- to_device devices t;;
      rest' <- load_adapter devices rest;;
      Ok ((name, if String.eqb devices "cpu" then to_float32 t else to_bfloat16 t)
          :: rest')
  end.

(** The two names the function binds for the result: [final_weights] in the
    [threshold] branch, [final_wieghts] in the [number] branch and in every
    later use.  [None] is an unbound local. *)
Record Finals : Type := {
  final_weights : option loc;
  final_wieghts : option loc
}.

Definition read_local {A} (x : option A) : result A :=
  of_option UnboundLocalError x.

(** Lines 238-244: the selection policy.  It returns the configuration
    and the heap as the passes leave them. *)
Definition select_layers (configs : SafeLoraConfig) (peft_weights : loc)
    (v : list tensor) (h : Heap)
  : (SafeLoraConfig * Heap) * result Finals :=
  if String.eqb (select_layers_type configs) "threshold" then
    match project_weights configs peft_weights v h with
    | (h1, Raise e) => (configs, h1, Raise e)
    | (h1, Ok (fw, _)) =>
        (configs, h1, Ok {| final_weights := Some fw; final_wieghts := None |})
    end
  else if String.eqb (select_layers_type configs) "number" then
    match project_weights configs peft_weights v h with
    | (h1, Raise e) => (configs, h1, Raise e)
    | (h1, Ok (_, cos)) =>
        match last_item (slice_to (np_sort cos) (num_proj_layers configs)) with
        | Raise e => (configs, h1, Raise e)
        | Ok thrs =>
            let configs := set_threshold configs thrs in
            match project_weights configs peft_weights v h1 with
            | (h2, Raise e) => (configs, h2, Raise e)
            | (h2, Ok (fw, _)) =>
                (configs, h2, Ok {| final_weights := None; final_wieghts := Some fw |})
            end
        end
    end
  else (configs, h, Ok {| final_weights := None; final_wieghts := None |}).

(** Lines 246-249: the optional write and the return. *)
Definition save_and_return (configs : SafeLoraConfig) (w : World)
    (finals : Finals) (h : Heap) : World * result (dict tensor) :=
  match getattr (saveWeights configs) with
  | Raise e => (w, Raise e)
  | Ok flag =>
      let saved :=
        if flag then
          match read_local (final_wieghts finals) with
          | Raise e => (w, Raise e)
          | Ok fw =>
              match peft_file configs "adapter_model.safetensors" with
              | Raise e => (w, Raise e)
              | Ok p => (save_file w (h fw) p, Ok tt)
              end
          end
        else (w, Ok tt) in
      match saved with
      | (w', Raise e) => (w', Raise e)
      | (w', Ok _) =>
          match read_local (final_wieghts finals) with
          | Raise e => (w', Raise e)
          | Ok fw => (w', Ok (h fw))
          end
      end
  end.

(** Lines 228-237: what is read before the selection. *)
Definition load_inputs (configs : SafeLoraConfig) (w : World)
  : result (list tensor * dict tensor) :=
  p <- peft_file configs "adapter_config.json";;
  tm <- json_target_modules w p;;
  let peft_config := {| target_modules := tm |} in
  v <- get_aligned_matrix w (base_model_path configs) (aligned_model_path configs)
         (devices configs) peft_config;;
  p <- peft_file configs "adapter_model.safetensors";;
  f <- safetensors w p;;
  peft_weights <- load_adapter (devices configs) f;;
  Ok (v, peft_weights).

(** The heap of a call: the dictionary built at line 235 or 237 is its
    only dictionary. *)
Definition peft_weights_loc : loc := 0.
Definition fresh_heap (peft_weights : dict tensor) : Heap :=
  upd (fun _ => []) peft_weights_loc peft_weights.

(** [apply_safelora(configs)]: the configuration object and the world
    after the call, and what the call returns. *)
Definition apply_safelora (configs : SafeLoraConfig) (w : World)
  : (SafeLoraConfig * World) * result (dict tensor) :=
  match load_inputs configs w with
  | Raise e => (configs, w, Raise e)
  | Ok (v, peft_weights) =>
      match select_layers configs peft_weights_loc v (fresh_heap peft_weights) with
      | (configs', _, Raise e) => (configs', w, Raise e)
      | (configs', h, Ok finals) =>
          let '(w', r) := save_and_return configs' w finals h in
          (configs', w', r)
      end
  end.

End WithTorch.
End SafeLora.

(* ================================================================== *)
(** ** An exact instance of the tensor library *)
(* ================================================================== *)

(** Tensors over the rationals.  Numbers are kept reduced, so that equal
    tensors are syntactically equal; a value that has no rational (a
    division by zero) is [NaN] and compares false with everything, as in
    IEEE arithmetic.  Square roots are truncated to twelve decimals, which
    is exact on the squares used in the examples.  Operands are not
    broadcast, except a zero-dimensional divisor. *)
Module Exact.

Inductive num : Type :=
| Fin (q : Q)
| NaN.

Definition lift2 (f : Q -> Q -> Q) (a b : num) : num :=
  match a, b with
  | Fin x, Fin y => Fin (Qred (f x y))
  | _, _ => NaN
  end.

Definition nadd : num -> num -> num := lift2 Qplus.
Definition nsub : num -> num -> num := lift2 Qminus.
Definition nmul : num -> num -> num := lift2 Qmult.

Definition is_zero (q : Q) : bool := Z.eqb (Qnum q) 0.

Definition ndiv (a b : num) : num :=
  match a, b with
  | Fin x, Fin y => if is_zero y then NaN else Fin (Qred (x / y))
  | _, _ => NaN
  end.

Definition scale : Z := (10 ^ 12)%Z.

Definition qsqrt (q : Q) : Q :=
  Qred (Z.sqrt (Qfloor (q * inject_Z (scale * scale))) # Z.to_pos scale).

Definition nsqrt (a : num) : num :=
  match a with
  | Fin x => if Qle_bool 0 x then Fin (qsqrt x) else NaN
  | NaN => NaN
  end.

Definition nmax (a b : num) : num :=
  match a, b with
  | Fin x, Fin y => if Qle_bool x y then Fin y else Fin x
  | _, _ => NaN
  end.

Definition nle (a b : num) : bool :=
  match a, b with
  | Fin x, Fin y => Qle_bool x y
  | _, _ => false
  end.

(** Rounding to five decimals, halves to the even neighbour. *)
Definition nround5 (a : num) : num :=
  match a with
  | NaN => NaN
  | Fin x =>
      let r := Qred (x * inject_Z 100000) in
      let f := Qfloor r in
      let twice := Qred (2 * (r - inject_Z f)) in
      let n := match Qcompare twice 1 with
               | Lt => f
               | Gt => (f + 1)%Z
               | Eq => if Z.even f then f else (f + 1)%Z
               end in
      Fin (Qred (n # 100000))
  end.

Inductive qtensor : Type :=
| Scalar (x : num)                 (* zero-dimensional *)
| Vector (xs : list num)
| Matrix (rows : list (list num)).

Definition qshape (t : qtensor) : list nat :=
  match t with
  | Scalar _ => []
  | Vector xs => [List.length xs]
  | Matrix rows => [List.length rows; List.length (hd [] rows)]
  end.

Fixpoint map2 {A B C} (f : A -> B -> C) (l : list A) (l' : list B) : list C :=
  match l, l' with
  | a :: l, b :: l' => f a b :: map2 f l l'
  | _, _ => []
  end.

Definition rectangular (rows : list (list num)) : bool :=
  forallb (fun r => Nat.eqb (List.length r) (List.length (hd [] rows))) rows.

Definition same_shape (a b : list (list num)) : bool :=
  Nat.eqb (List.length a) (List.length b) &&
  forallb (fun p => Nat.eqb (List.length (fst p)) (List.length (snd p))) (combine a b).

Definition qto_device (d : string) (t : qtensor) : result qtensor :=
  if String.eqb d "cpu" || String.eqb d "cuda" then Ok t else Raise RuntimeError.

Definition qsub (a b : qtensor) : result qtensor :=
  match a, b with
  | Scalar x, Scalar y => Ok (Scalar (nsub x y))
  | Vector xs, Vector ys =>
      if Nat.eqb (List.length xs) (List.length ys)
      then Ok (Vector (map2 nsub xs ys)) else Raise RuntimeError
  | Matrix r, Matrix r' =>
      if same_shape r r' then Ok (Matrix (map2 (map2 nsub) r r'))
      else Raise RuntimeError
  | _, _ => Raise RuntimeError
  end.

Fixpoint columns (width : nat) (rows : list (list num)) : list (list num) :=
  match width with
  | O => []
  | S n => map (fun r => hd NaN r) rows :: columns n (map (fun r => tl r) rows)
  end.

Definition qtranspose (t : qtensor) : result qtensor :=
  match t with
  | Matrix rows => Ok (Matrix (columns (List.length (hd [] rows)) rows))
  | _ => Ok t
  end.

Definition dot (xs ys : list num) : num :=
  fold_left nadd (map2 nmul xs ys) (Fin 0).

Definition qmm (a b : qtensor) : result qtensor :=
  match a, b with
  | Matrix r, Matrix r' =>
      if rectangular r && rectangular r' &&
         Nat.eqb (List.length (hd [] r)) (List.length r')
      then
        let cols := columns (List.length (hd [] r')) r' in
        Ok (Matrix (map (fun row => map (fun col => dot row col) cols) r))
      else Raise RuntimeError
  | _, _ => Raise RuntimeError
  end.

Definition entries (t : qtensor) : list num :=
  match t with
  | Scalar x => [x]
  | Vector xs => xs
  | Matrix rows => List.concat rows
  end.

Definition map_entries (f : num -> num) (t : qtensor) : qtensor :=
  match t with
  | Scalar x => Scalar (f x)
  | Vector xs => Vector (map f xs)
  | Matrix rows => Matrix (map (map f) rows)
  end.

Definition vnorm (xs : list num) : num := nsqrt (dot xs xs).

Definition qnorm (t : qtensor) : qtensor := Scalar (vnorm (entries t)).

Definition qdiv (a b : qtensor) : result qtensor :=
  match b with
  | Scalar y => Ok (map_entries (fun x => ndiv x y) a)
  | _ => Raise RuntimeError
  end.

Definition qreshape_row (t : qtensor) : qtensor := Matrix [entries t].

Definition eps : num := Fin (1 # 100000000).

Definition cos_row (xs ys : list num) : num :=
  ndiv (dot xs ys) (nmax (nmul (vnorm xs) (vnorm ys)) eps).

Definition qcosine_similarity (a b : qtensor) : result qtensor :=
  match a, b with
  | Matrix r, Matrix r' =>
      if same_shape r r' then Ok (Vector (map2 cos_row r r'))
      else Raise RuntimeError
  | _, _ => Raise RuntimeError
  end.

Definition qitem (t : qtensor) : result num :=
  match entries t with
  | [x] => Ok x
  | _ => Raise RuntimeError
  end.

#[export] Instance torch : Torch :=
  Build_Torch (tensor := qtensor) (pyfloat := num)
    qshape qto_device
    (fun t => t) (fun t => t)
    qsub qtranspose qmm qnorm qdiv
    (fun t => t)
    qreshape_row qcosine_similarity qitem
    nround5 nle
    (map_entries (nadd (Fin 1))) (map_entries (ndiv (Fin 1))).

End Exact.

(* ================================================================== *)
(** ** Concrete stores and adapters *)
(* ================================================================== *)

Module Examples.
Import SafeLora Exact.

Definition n (k : Z) : num := Fin (inject_Z k).

(** A 2x2 alignment matrix: the projection on the first coordinate. *)
Definition P : tensor := Matrix [[n 1; n 0]; [n 0; n 0]].

(** Base and aligned weights whose difference [D] gives [D.Dt / |D| = P]. *)
Definition D : tensor := Matrix [[n 1; n 0]; [n 0; n 0]].
Definition zeros : tensor := Matrix [[n 0; n 0]; [n 0; n 0]].
(** An aligned weight of another shape. *)
Definition zeros_1x2 : tensor := Matrix [[n 0; n 0]].

(** Rank-one adapter factors. *)
Definition A1 : tensor := Matrix [[n 1]].
Definition B_3_4 : tensor := Matrix [[n 3]; [n 4]].
Definition B_7_24 : tensor := Matrix [[n 7]; [n 24]].
Definition B_5_12 : tensor := Matrix [[n 5]; [n 12]].

Definition adapter (Bq Bv : tensor) : dict tensor :=
  [("q_proj.lora_A.weight", A1); ("q_proj.lora_B.weight", Bq);
   ("v_proj.lora_A.weight", A1); ("v_proj.lora_B.weight", Bv)].

Definition one_layer : dict tensor :=
  [("q_proj.lora_A.weight", A1); ("q_proj.lora_B.weight", B_3_4)].

Definition shard : string := "model-00001-of-00001.safetensors".

Definition store (q v : tensor) : dict tensor :=
  [("model.q_proj.weight", q); ("model.v_proj.weight", v)].

(** Two sharded stores [base] and [aligned] (one shard each), and an
    adapter directory [adapter].  [aligned_q] is the aligned model's
    [q_proj] weight. *)
Definition world (aligned_q : tensor) (adapter_weights : dict tensor) : World := {|
  path_exists := fun p => existsb (String.eqb p) ["base"; "aligned"; "adapter"];
  snapshot_download := fun _ => Raise OSError;
  checkpoint_shard_files := fun d =>
    if String.eqb d "base" || String.eqb d "aligned" then
      Ok ([path_join d shard],
          [("model.q_proj.weight", shard); ("model.v_proj.weight", shard)])
    else Raise OSError;
  safetensors := fun p =>
    if String.eqb p (path_join "base" shard) then Ok (store D D)
    else if String.eqb p (path_join "aligned" shard) then Ok (store aligned_q zeros)
    else if String.eqb p "adapter/adapter_model.safetensors" then Ok adapter_weights
    else Raise FileNotFoundError;
  json_target_modules := fun p =>
    if String.eqb p "adapter/adapter_config.json"
    then Ok (Some ["q_proj"; "v_proj"])
    else Raise FileNotFoundError
|}.

(** The same, with the base model stored in the single file
    [base/model.safetensors]. *)
Definition world_single_file : World := {|
  path_exists := fun p =>
    existsb (String.eqb p) ["base"; "base/model.safetensors"; "aligned"; "adapter"];
  snapshot_download := fun _ => Raise OSError;
  checkpoint_shard_files := checkpoint_shard_files (world zeros (adapter B_7_24 B_5_12));
  safetensors := fun p =>
    if String.eqb p "base/model.safetensors" then Ok (store D D)
    else safetensors (world zeros (adapter B_7_24 B_5_12)) p;
  json_target_modules := json_target_modules (world zeros (adapter B_7_24 B_5_12))
|}.

(** A configuration as the constructor builds it. *)
Definition config (select : string) (thr : num) (k : Z) (save : bool)
  : SafeLoraConfig := {|
  base_model_path := Some "base";
  aligned_model_path := Some "aligned";
  peft_model_path := Some "adapter";
  select_layers_type := select;
  threshold := thr;
  num_proj_layers := k;
  devices := "cpu";
  save_weights := save;
  saveWeights := Absent
|}.

Definition half : num := Fin (1 # 2).

(** A base store split over two shards, one tensor in each. *)
Definition shard1 : string := "model-00001-of-00002.safetensors".
Definition shard2 : string := "model-00002-of-00002.safetensors".

Definition two_shards (resolved : list string) : World := {|
  path_exists := fun p => String.eqb p "base";
  snapshot_download := fun _ => Raise OSError;
  checkpoint_shard_files := fun d =>
    if String.eqb d "base" then
      Ok (resolved,
          [("model.q_proj.weight", shard1); ("model.v_proj.weight", shard2)])
    else Raise OSError;
  safetensors := fun p =>
    if String.eqb p (path_join "base" shard1)
    then Ok [("model.q_proj.weight", D)]
    else if String.eqb p (path_join "base" shard2)
    then Ok [("model.v_proj.weight", zeros)]
    else Raise FileNotFoundError;
  json_target_modules := fun _ => Raise FileNotFoundError
|}.

Definition world_two_shards : World :=
  two_shards [path_join "base" shard1; path_join "base" shard2].

(** The index names the second shard, which is not among the files. *)
Definition world_missing_shard : World :=
  two_shards [path_join "base" shard1].

(** The loader [SafetensorLoader("base")] builds in [world_two_shards]. *)
Definition two_shards_loader : SafetensorLoader := {|
  model_path := "base/model.safetensors";
  is_sharded := true;
  weight_map := Some [("model.q_proj.weight", path_join "base" shard1);
                      ("model.v_proj.weight", path_join "base" shard2)];
  base_model_prefix := Absent
|}.

(** A single-file loader on which a caller has set [base_model_prefix]. *)
Definition prefixed_loader (prefix : option string) : SafetensorLoader := {|
  model_path := "base/model.safetensors";
  is_sharded := false;
  weight_map := None;
  base_model_prefix := Present prefix
|}.

(** A configuration on which a caller has set [saveWeights]. *)
Definition config_by_hand (select : string) (thr : num) (k : Z) (flag : bool)
  : SafeLoraConfig := {|
  base_model_path := Some "base";
  aligned_model_path := Some "aligned";
  peft_model_path := Some "adapter";
  select_layers_type := select;
  threshold := thr;
  num_proj_layers := k;
  devices := "cpu";
  save_weights := flag;
  saveWeights := Present flag
|}.

End Examples.

(* ================================================================== *)
(** ** Properties *)
(* ================================================================== *)

Import SafeLora.

(** *** Results and dictionaries *)

Lemma bind_Ok {A B} (m : result A) (k : A -> result B) (b : B) :
  bind m k = Ok b -> exists a, m = Ok a /\ k a = Ok b.
Proof.
  destruct m as [a|e]; simpl; intros E; [eauto | discriminate].
Qed.

Lemma returns_Ok {A} (m : result A) :
  returns m = true -> exists a, m = Ok a.
Proof.
  destruct m; simpl; [eauto | discriminate].
Qed.

(** Inverts a chain of binds that returned. *)
Ltac bind_inv E :=
  repeat match type of E with
         | bind _ _ = Ok _ =>
             let a := fresh "a" in
             let Ea := fresh "E" a in
             apply bind_Ok in E; destruct E as (a & Ea & E)
         end.

Section DictFacts.
Variable V : Type.
Implicit Types (d : dict V) (k : string) (v : V).

Lemma get_setitem_same d k v : get (setitem d k v) k = Some v.
Proof.
  induction d as [|[k' v'] d IH]; simpl.
  - now rewrite String.eqb_refl.
  - destruct (String.eqb k' k) eqn:E; simpl; rewrite E; auto.
Qed.

Lemma get_setitem_other d k k' v :
  k' <> k -> get (setitem d k v) k' = get d k'.
Proof.
  intros N. induction d as [|[k0 v0] d IH]; simpl.
  - destruct (String.eqb k k') eqn:E; auto.
    apply String.eqb_eq in E. congruence.
  - destruct (String.eqb k0 k) eqn:E; simpl.
    + apply String.eqb_eq in E. subst k0.
      destruct (String.eqb k k') eqn:E'; auto.
      apply String.eqb_eq in E'. congruence.
    + now rewrite IH.
Qed.

Lemma get_in_keys d k v : get d k = Some v -> In k (keys d).
Proof.
  induction d as [|[k' v'] d IH]; simpl; [discriminate|].
  destruct (String.eqb k' k) eqn:E; intros G.
  - left. now apply String.eqb_eq.
  - right. auto.
Qed.

Lemma in_keys_get d k : In k (keys d) -> exists v, get d k = Some v.
Proof.
  induction d as [|[k' v'] d IH]; simpl; [tauto|].
  intros [->|I].
  - rewrite String.eqb_refl. eauto.
  - destruct (String.eqb k' k); eauto.
Qed.

Lemma keys_setitem d k v : In k (keys d) -> keys (setitem d k v) = keys d.
Proof.
  induction d as [|[k' v'] d IH]; simpl; [tauto|].
  intros I. destruct (String.eqb k' k) eqn:E; simpl; auto.
  f_equal. apply IH. destruct I as [->|I]; auto.
  rewrite String.eqb_refl in E. discriminate.
Qed.

End DictFacts.

(** *** The derived threshold, [numpy.sort(cos)[:k][-1]] *)

(** For [k >= 1] and at least one score, the slice and the last item pick
    the k-th smallest score, or the largest one when [k] exceeds the number
    of scores: the slice clamps, nothing is indexed out of bounds. *)
Lemma slice_last_clamped {A} (l : list A) (k : Z) (d : A) :
  (1 <= k)%Z -> l <> [] ->
  last_item (slice_to l k)
  = Ok (nth (Nat.min (Z.to_nat k) (List.length l) - 1) l d).
Proof.
  intros K N. unfold last_item, slice_to.
  replace (0 <=? k)%Z with true by (symmetry; apply Z.leb_le; lia).
  rewrite length_firstn, nth_error_firstn.
  assert (L : 0 < List.length l) by (destruct l; simpl; [congruence | lia]).
  assert (M : Nat.min (Z.to_nat k) (List.length l) - 1 < Z.to_nat k) by lia.
  apply Nat.ltb_lt in M. rewrite M.
  rewrite (nth_error_nth' l d) by lia. reflexivity.
Qed.

(** With [k = 0], or without any score, the last item does not exist. *)
Lemma slice_last_empty {A} (l : list A) (k : Z) :
  k = 0%Z \/ l = [] -> last_item (slice_to l k) = Raise IndexError.
Proof.
  intros [->| ->]; unfold last_item, slice_to.
  - reflexivity.
  - destruct (0 <=? k)%Z; rewrite firstn_nil; reflexivity.
Qed.

(** *** The loop of [project_weights] *)

Section ProjectFacts.
Context `{Torch}.
Variable configs : SafeLoraConfig.
Variable ori : dict tensor.
Variable v : list tensor.
Variable l : loc.

Lemma upd_same (h : Heap) (d : dict tensor) : upd h l d l = d.
Proof. unfold upd. now rewrite Nat.eqb_refl. Qed.

Lemma upd_other (h : Heap) (d : dict tensor) (l' : loc) :
  l' <> l -> upd h l d l' = h l'.
Proof.
  intros N. unfold upd. destruct (Nat.eqb l' l) eqn:E; auto.
  apply Nat.eqb_eq in E. congruence.
Qed.

(** What a candidate that was computed is made of. *)
Lemma candidate_inv idx name_A name_B W cos :
  candidate configs ori v idx name_A name_B = Ok (W, cos) ->
  exists A P0 P B,
    get ori name_A = Some A /\ index v idx = Ok P0 /\
    cast_P configs P0 = Ok P /\ get ori name_B = Some B /\
    mm P B = Ok W.
Proof.
  unfold candidate. intros E. bind_inv E.
  unfold getitem, of_option in *.
  destruct (get ori name_A) as [A|] eqn:GA; [|discriminate].
  destruct (get ori name_B) as [B|] eqn:GB; [|discriminate].
  exists A, a0, a1, B. repeat split; auto; congruence.
Qed.

Lemma selected_eq name_B W cos i0 B :
  get ori name_B = Some B ->
  selected configs ori name_B W cos i0 =
  Ok (if float_le cos (threshold configs) then S i0 else i0,
      if float_le cos (threshold configs) then W else B).
Proof.
  intros G. unfold selected, getitem. rewrite G.
  now destruct (float_le cos (threshold configs)).
Qed.

(** A turn touches one entry of one dictionary, whatever its outcome. *)
Lemma project_step_frame name_A name_B s h :
  keys (h l) = keys ori ->
  let h' := fst (project_step configs ori v l name_A name_B s h) in
  keys (h' l) = keys ori /\
  (forall k, k <> name_B -> get (h' l) k = get (h l) k) /\
  (forall l', l' <> l -> h' l' = h l').
Proof.
  intros K. unfold project_step.
  destruct (candidate configs ori v (idx s) name_A name_B) as [[W c]|e] eqn:C;
    simpl; auto.
  destruct (candidate_inv _ _ _ C) as (A & P0 & P & B & _ & _ & _ & GB & _).
  rewrite (selected_eq _ _ _ _ GB).
  set (new_B := if float_le c (threshold configs) then W else B).
  assert (F : let h1 := upd h l (setitem (h l) name_B new_B) in
              keys (h1 l) = keys ori /\
              (forall k, k <> name_B -> get (h1 l) k = get (h l) k) /\
              (forall l', l' <> l -> h1 l' = h l')).
  { simpl. rewrite upd_same. repeat split.
    - rewrite keys_setitem; auto. rewrite K. eapply get_in_keys; eauto.
    - intros k N. now apply get_setitem_other.
    - intros l' N. now apply upd_other. }
  destruct (distance _ name_B W); simpl; exact F.
Qed.

Lemma project_loop_frame pairs : forall s h,
  keys (h l) = keys ori ->
  let h' := fst (project_loop configs ori v l pairs s h) in
  keys (h' l) = keys ori /\
  (forall k, ~ In k (map snd pairs) -> get (h' l) k = get (h l) k) /\
  (forall l', l' <> l -> h' l' = h l').
Proof.
  induction pairs as [|[name_A name_B] rest IH]; intros s h K; simpl; auto.
  destruct (project_step_frame name_A name_B s h K) as (K1 & G1 & O1).
  destruct (project_step configs ori v l name_A name_B s h) as [h1 [s1|e]];
    simpl in *.
  - destruct (IH s1 h1 K1) as (K2 & G2 & O2). split; [exact K2|split].
    + intros k N. rewrite G2 by tauto. apply G1. intros ->. tauto.
    + intros l' N. rewrite O2 by exact N. apply O1, N.
  - split; [exact K1|split; [|exact O1]].
    intros k N. apply G1. intros ->. tauto.
Qed.

(** On valid layers whose [lora_B] names are distinct the loop returns,
    and each layer ends up with the tensor its score selects. *)
Lemma project_loop_ok pairs : forall s h,
  keys (h l) = keys ori ->
  NoDup (map snd pairs) ->
  layers_valid configs ori v pairs (idx s) = true ->
  exists h' s' cs,
    project_loop configs ori v l pairs s h = (h', Ok s') /\
    cos_total s' = cos_total s ++ cs /\
    forall j name_A name_B,
      nth_error pairs j = Some (name_A, name_B) ->
      exists W c B,
        candidate configs ori v (idx s + j) name_A name_B = Ok (W, c) /\
        get ori name_B = Some B /\
        nth_error cs j = Some c /\
        get (h' l) name_B =
          Some (if float_le c (threshold configs) then W else B).
Proof.
  induction pairs as [|[name_A name_B] rest IH]; intros s h K ND LV; simpl.
  - exists h, s, []. rewrite app_nil_r. repeat split; auto.
    intros [|j] ? ? E; discriminate.
  - simpl in LV. apply andb_prop in LV. destruct LV as [LV1 LV2].
    inversion ND as [|? ? NI ND']; subst.
    unfold layer_valid in LV1. unfold project_step.
    destruct (candidate configs ori v (idx s) name_A name_B) as [[W c]|e] eqn:C;
      [|discriminate].
    destruct (candidate_inv _ _ _ C) as (A & P0 & P & B & _ & _ & _ & GB & _).
    rewrite (selected_eq _ _ _ _ GB) in LV1. rewrite (selected_eq _ _ _ _ GB).
    set (new_B := if float_le c (threshold configs) then W else B) in *.
    set (h1 := upd h l (setitem (h l) name_B new_B)).
    assert (G1 : get (h1 l) name_B = Some new_B).
    { subst h1. rewrite upd_same. apply get_setitem_same. }
    unfold distance, getitem. rewrite G1. simpl.
    apply returns_Ok in LV1. destruct LV1 as [dist ->].
    set (s1 := {| idx := S (idx s); i := _; dis := _; cos_total := _ |}).
    assert (K1 : keys (h1 l) = keys ori).
    { subst h1. rewrite upd_same, keys_setitem; auto.
      rewrite K. eapply get_in_keys; eauto. }
    destruct (IH s1 h1 K1 ND' LV2) as (h' & s' & cs & L & CT & Each).
    exists h', s', (c :: cs). split; [exact L|]. split.
    { rewrite CT. subst s1. simpl. now rewrite <- app_assoc. }
    intros [|j] nA nB E; simpl in E.
    + inversion E; subst nA nB. exists W, c, B.
      rewrite Nat.add_0_r. repeat split; auto.
      destruct (project_loop_frame rest s1 h1 K1) as (_ & G & _).
      rewrite L in G. simpl in G. rewrite G; auto.
    + destruct (Each j nA nB E) as (W' & c' & B' & C' & GB' & N' & F').
      exists W', c', B'. subst s1. simpl in C'.
      rewrite Nat.add_succ_r. repeat split; auto.
Qed.

End ProjectFacts.

(** *** [project_weights] *)

Section ProjectWeights.
Context `{Torch}.

Lemma snd_combine_in {A B} (a : list A) (b : list B) (y : B) :
  In y (map snd (combine a b)) -> In y b.
Proof.
  intros I. apply in_map_iff in I. destruct I as ([x y'] & E & I).
  simpl in E. subst y'. eapply in_combine_r; eauto.
Qed.

Lemma snd_combine_NoDup {A B} (a : list A) : forall b : list B,
  NoDup b -> NoDup (map snd (combine a b)).
Proof.
  induction a as [|x a IH]; intros [|y b] ND; simpl; try constructor.
  - inversion ND; subst. intros I. apply snd_combine_in in I. contradiction.
  - inversion ND; subst. auto.
Qed.

Lemma layers_NoDup (d : dict tensor) : wf d -> NoDup (map snd (layers d)).
Proof.
  intros W. apply snd_combine_NoDup. now apply NoDup_filter.
Qed.

(** Every name the loop assigns holds "lora_B". *)
Lemma layers_lora_B (d : dict tensor) (k : string) :
  In k (map snd (layers d)) -> str_in "lora_B" k = true.
Proof.
  intros I. apply snd_combine_in in I. unfold names_with in I.
  apply filter_In in I. tauto.
Qed.

(** The frame of a call, whatever its outcome. *)
Lemma project_weights_frame (configs : SafeLoraConfig) (l : loc)
    (v : list tensor) (h : Heap) :
  let h' := fst (project_weights configs l v h) in
  keys (h' l) = keys (h l) /\
  (forall k, ~ In k (map snd (layers (h l))) -> get (h' l) k = get (h l) k) /\
  (forall l', l' <> l -> h' l' = h l').
Proof.
  unfold project_weights.
  pose proof (project_loop_frame configs (h l) v l (layers (h l))
                {| idx := 0; i := 0; dis := []; cos_total := [] |} h eq_refl) as F.
  unfold layers in *.
  destruct (project_loop _ _ _ _ _ _ _) as [h' [s|e]]; simpl in *; exact F.
Qed.

(** A call on valid inputs returns the address it was given, and every
    layer holds what its score selects. *)
Lemma project_weights_ok (configs : SafeLoraConfig) (l : loc)
    (v : list tensor) (h : Heap) :
  wf (h l) ->
  valid_inputs configs (h l) v = true ->
  exists h' cos,
    project_weights configs l v h = (h', Ok (l, cos)) /\
    forall j name_A name_B,
      nth_error (layers (h l)) j = Some (name_A, name_B) ->
      exists W c B,
        candidate configs (h l) v j name_A name_B = Ok (W, c) /\
        get (h l) name_B = Some B /\
        nth_error cos j = Some c /\
        get (h' l) name_B =
          Some (if float_le c (threshold configs) then W else B).
Proof.
  intros W V.
  destruct (project_loop_ok configs (h l) v l (layers (h l))
              {| idx := 0; i := 0; dis := []; cos_total := [] |} h eq_refl
              (layers_NoDup W) V) as (h' & s' & cs & L & CT & Each).
  simpl in CT. subst cs.
  exists h', (cos_total s'). split; [|exact Each].
  unfold project_weights. unfold layers in L. now rewrite L.
Qed.

(** [C4] For all valid inputs, [project_weights] returns a weight mapping
    whose keys are exactly the keys of the adapter weight mapping it was
    given (indeed in the same order): no key is added and none is removed. *)
Theorem project_weights_same_keys (configs : SafeLoraConfig) (l : loc)
    (v : list tensor) (h : Heap) :
  wf (h l) ->
  valid_inputs configs (h l) v = true ->
  exists h' cos,
    project_weights configs l v h = (h', Ok (l, cos)) /\
    keys (h' l) = keys (h l).
Proof.
  intros W V.
  destruct (project_weights_ok configs l v h W V) as (h' & cos & E & _).
  exists h', cos. split; [exact E|].
  pose proof (project_weights_frame configs l v h) as F.
  rewrite E in F. simpl in F. tauto.
Qed.

(** [C9] [project_weights] returns the very mapping object it was passed,
    mutated in place: a key whose name does not contain "lora_B" (so every
    plain "lora_A" factor) keeps the tensor it had, no other object of the
    heap changes, and this holds whether the call returns or raises. *)
Theorem project_weights_in_place (configs : SafeLoraConfig) (l : loc)
    (v : list tensor) (h : Heap) :
  let r := project_weights configs l v h in
  (forall l' cos, snd r = Ok (l', cos) -> l' = l) /\
  (forall k, str_in "lora_B" k = false -> get (fst r l) k = get (h l) k) /\
  (forall l', l' <> l -> fst r l' = h l').
Proof.
  pose proof (project_weights_frame configs l v h) as (_ & G & O).
  simpl. split; [|split].
  - unfold project_weights.
    destruct (project_loop _ _ _ _ _ _ _) as [h' [s|e]]; simpl;
      intros l' cos E; congruence.
  - intros k NB. apply G. intros I. apply layers_lora_B in I. congruence.
  - exact O.
Qed.

Lemma nth_error_combine_both {A B} (a : list A) : forall (b : list B) j x y,
  nth_error a j = Some x -> nth_error b j = Some y ->
  nth_error (combine a b) j = Some (x, y).
Proof.
  induction a as [|x0 a IH]; intros [|y0 b] [|j] x y Na Nb;
    simpl in *; try discriminate.
  - congruence.
  - auto.
Qed.

(** Every step of a candidate that was computed (lines 186-195). *)
Lemma candidate_steps (configs : SafeLoraConfig) (ori : dict tensor)
    (v : list tensor) (j : nat) (name_A name_B : string) (W : tensor)
    (c : pyfloat) :
  candidate configs ori v j name_A name_B = Ok (W, c) ->
  exists P0 P A B fW ori_delta cs x,
    get ori name_A = Some A /\ get ori name_B = Some B /\
    nth_error v j = Some P0 /\
    (if negb (String.eqb (devices configs) "cpu")
     then to_device (devices configs) (to_bfloat16 P0)
     else to_device "cpu" P0) = Ok P /\
    mm P B = Ok W /\ mm W A = Ok fW /\ mm B A = Ok ori_delta /\
    cosine_similarity (reshape_row fW) (reshape_row ori_delta) = Ok cs /\
    item cs = Ok x /\ c = round5 x.
Proof.
  unfold candidate, cast_P, index, getitem, of_option. intros E. bind_inv E.
  destruct (get ori name_A) as [A|] eqn:GA; [|discriminate].
  destruct (get ori name_B) as [B|] eqn:GB; [|discriminate].
  destruct (nth_error v j) as [P0|] eqn:NV; [|discriminate].
  injection Ea as <-. injection Ea0 as <-. injection Ea2 as <-.
  injection Ea5 as <-. injection E as <- <-.
  exists P0, a1, A, B, a4, a6, a7, a8. repeat split; auto.
Qed.

(** [C1] Under the threshold policy, on valid inputs, the call returns and
    for every paired factor (A_i, B_i), the i-th name holding "lora_A" and
    the i-th name holding "lora_B", with alignment matrix P_i: the score of
    the layer is the cosine similarity of the flattened (P_i . B_i) . A_i
    and B_i . A_i, rounded to five decimals, and the entry of B_i holds the
    projected W_i = P_i . B_i if that score is <= the configured threshold,
    and the original B_i otherwise. *)
Theorem threshold_policy_replaces_iff_score_le (configs : SafeLoraConfig)
    (l : loc) (v : list tensor) (h : Heap) :
  select_layers_type configs = "threshold" ->
  wf (h l) ->
  valid_inputs configs (h l) v = true ->
  exists h' cos,
    select_layers configs l v h =
      (configs, h', Ok {| final_weights := Some l; final_wieghts := None |}) /\
    project_weights configs l v h = (h', Ok (l, cos)) /\
    forall j name_A name_B,
      nth_error (filter (fun name => str_in "lora_A" name) (keys (h l))) j
        = Some name_A ->
      nth_error (filter (fun name => str_in "lora_B" name) (keys (h l))) j
        = Some name_B ->
      exists P0 P A B W fW ori cs x,
        get (h l) name_A = Some A /\ get (h l) name_B = Some B /\
        nth_error v j = Some P0 /\
        (if negb (String.eqb (devices configs) "cpu")
         then to_device (devices configs) (to_bfloat16 P0)
         else to_device "cpu" P0) = Ok P /\
        mm P B = Ok W /\ mm W A = Ok fW /\ mm B A = Ok ori /\
        cosine_similarity (reshape_row fW) (reshape_row ori) = Ok cs /\
        item cs = Ok x /\
        nth_error cos j = Some (round5 x) /\
        get (h' l) name_B =
          Some (if float_le (round5 x) (threshold configs) then W else B).
Proof.
  intros T W V.
  destruct (project_weights_ok configs l v h W V) as (h' & cos & E & Each).
  exists h', cos. split; [|split; [exact E|]].
  - unfold select_layers. rewrite T. simpl. now rewrite E.
  - intros j nA nB NA NB.
    assert (N : nth_error (layers (h l)) j = Some (nA, nB))
      by (apply nth_error_combine_both; assumption).
    destruct (Each j nA nB N) as (W' & c & B & C & GB & NC & F).
    destruct (candidate_steps _ _ _ _ _ _ C)
      as (P0 & P & A & B' & fW & ori & cs & x &
          GA & GB' & NV & CP & M1 & M2 & M3 & CS & IT & ->).
    assert (B' = B) by congruence. subst B'.
    exists P0, P, A, B, W', fW, ori, cs, x. repeat split; auto.
Qed.

(** What [project_weights] reads of the configuration. *)
Lemma candidate_ext (c1 c2 : SafeLoraConfig) (ori : dict tensor)
    (v : list tensor) (j : nat) (name_A name_B : string) :
  devices c1 = devices c2 ->
  candidate c1 ori v j name_A name_B = candidate c2 ori v j name_A name_B.
Proof.
  intros D. unfold candidate, cast_P. now rewrite D.
Qed.

Lemma project_loop_ext (c1 c2 : SafeLoraConfig) (ori : dict tensor)
    (v : list tensor) (l1 l2 : loc) (pairs : list (string * string)) :
  devices c1 = devices c2 -> threshold c1 = threshold c2 ->
  forall s h1 h2, h1 l1 = h2 l2 ->
    fst (project_loop c1 ori v l1 pairs s h1) l1 =
      fst (project_loop c2 ori v l2 pairs s h2) l2 /\
    snd (project_loop c1 ori v l1 pairs s h1) =
      snd (project_loop c2 ori v l2 pairs s h2).
Proof.
  intros D T. induction pairs as [|[nA nB] rest IH]; intros s h1 h2 E; simpl; auto.
  unfold project_step, selected. rewrite (candidate_ext c1 c2 _ _ _ _ _ D), T.
  destruct (candidate c2 ori v (idx s) nA nB) as [[W c]|e]; simpl; auto.
  destruct (if float_le c (threshold c2) then _ else _) as [[i' new_B]|e];
    simpl; auto.
  rewrite !upd_same, E.
  destruct (distance _ nB W) as [dist|e]; simpl.
  - apply IH. now rewrite !upd_same.
  - now rewrite !upd_same.
Qed.

End ProjectWeights.

Section Determinacy.
Context `{Torch}.

(** [C3] (amended) The outputs of [project_weights] are determined by the
    contents of the mapping it is given, the alignment matrices, and the
    devices and threshold of the configuration: two calls that agree on
    these return the same scores or raise the same exception, and leave the
    same contents in the mapping, whatever else the heap and the
    configuration hold.  The call itself overwrites the mapping, so a
    second call on the same object is a call on other contents. *)
Theorem project_weights_determined_by_contents (c1 c2 : SafeLoraConfig)
    (l : loc) (v : list tensor) (h1 h2 : Heap) :
  devices c1 = devices c2 ->
  threshold c1 = threshold c2 ->
  h1 l = h2 l ->
  fst (project_weights c1 l v h1) l = fst (project_weights c2 l v h2) l /\
  snd (project_weights c1 l v h1) = snd (project_weights c2 l v h2).
Proof.
  intros D T E. unfold project_weights. rewrite E.
  pose proof (project_loop_ext c1 c2 (h2 l) v l l
                (combine (names_with "lora_A" (h2 l)) (names_with "lora_B" (h2 l)))
                D T {| idx := 0; i := 0; dis := []; cos_total := [] |} h1 h2 E)
    as [F S].
  destruct (project_loop c1 _ _ _ _ _ h1) as [h1' [s1|e1]];
    destruct (project_loop c2 _ _ _ _ _ h2) as [h2' [s2|e2]];
    simpl in *; try discriminate; split; auto; congruence.
Qed.

End Determinacy.

(** *** [SafeLoraConfig] *)

Section Config.
Context `{Torch}.

(** [C8] (amended) Constructing a configuration fails, with a ValueError,
    exactly when one of the base-model, aligned-model and adapter paths is
    missing (None); a path that is given is accepted as it is. *)
Theorem config_construction_fails_iff_path_missing
    (base aligned peft : option string) (select : string) (thr : pyfloat)
    (num : Z) (dev : string) (save : bool) :
  let r := SafeLoraConfig_new base aligned peft select thr num dev save in
  (r = Raise ValueError <-> base = None \/ aligned = None \/ peft = None) /\
  (returns r = false <-> base = None \/ aligned = None \/ peft = None).
Proof.
  unfold SafeLoraConfig_new, __post_init__. simpl.
  destruct base, aligned, peft; simpl; split; split;
    try (intros; discriminate); try (intros [|[|]]; discriminate);
    try tauto; auto.
Qed.

End Config.

(** *** [SafetensorLoader] *)

Section Loader.
Context `{Torch}.

(** What [__init__] leaves in the object. *)
Lemma SafetensorLoader_init_attrs (w : World) (p : option string)
    (self : SafetensorLoader) :
  SafetensorLoader_init w p = Ok self ->
  base_model_prefix self = Absent /\
  (is_sharded self = false <-> weight_map self = None) /\
  (is_sharded self = false -> path_exists w (model_path self) = true).
Proof.
  unfold SafetensorLoader_init. destruct p as [p|]; [|discriminate].
  intros E. apply bind_Ok in E. destruct E as (_ & _ & E).
  set (q := if negb (endswith p suffix) then path_join p suffix else p) in *.
  destruct (path_exists w q) eqn:X; simpl in E.
  - inversion E; subst; simpl. intuition congruence.
  - destruct (checkpoint_shard_files w (rpartition_head q)) as [[files wm]|e].
    + bind_inv E. inversion E; subst; simpl. intuition congruence.
    + destruct (is_OSError e); discriminate.
Qed.

(** [C7] (what the code does) On a loader built by [__init__], a name that
    the opened file does not hold makes [get_tensor] raise AttributeError:
    [base_model_prefix] is read and was never assigned, so the prefix is
    neither stripped for a second lookup nor is the tensor-not-found error
    passed on. *)
Theorem get_tensor_unknown_name_raises_AttributeError (w : World)
    (p : option string) (self : SafetensorLoader) (name file_path : string)
    (f : dict tensor) :
  SafetensorLoader_init w p = Ok self ->
  file_path_of self name = Ok file_path ->
  safetensors w file_path = Ok f ->
  get f name = None ->
  get_tensor w self name = Raise AttributeError.
Proof.
  intros I FP S G. apply SafetensorLoader_init_attrs in I.
  destruct I as (A & _). unfold get_tensor. rewrite FP. simpl.
  rewrite S. simpl. unfold file_get_tensor. rewrite G. simpl.
  now rewrite A.
Qed.

(** [C10] A loader accepts a store kept in one file and leaves its
    [weight_map] unset; when the base or the aligned store is such a store,
    [get_aligned_matrix] raises and yields no alignment matrix. *)
Theorem single_file_store_fails_alignment (w : World)
    (base_model_path aligned_model_path : option string) (devices : string)
    (peft_config : PeftConfig) (sl : SafetensorLoader) :
  SafetensorLoader_init w base_model_path = Ok sl \/
  SafetensorLoader_init w aligned_model_path = Ok sl ->
  is_sharded sl = false ->
  exists e,
    get_aligned_matrix w base_model_path aligned_model_path devices peft_config
    = Raise e.
Proof.
  intros I NS. unfold get_aligned_matrix.
  destruct (SafetensorLoader_init w aligned_model_path) as [sa|e] eqn:IA;
    simpl; [|eauto].
  destruct (SafetensorLoader_init w base_model_path) as [sb|e] eqn:IB;
    simpl; [|eauto].
  destruct (SafetensorLoader_init_attrs _ _ IA) as (_ & WA & _).
  destruct (SafetensorLoader_init_attrs _ _ IB) as (_ & WB & _).
  unfold weight_map_keys.
  destruct I as [I|I]; inversion I; subst sl.
  - apply WB in NS. rewrite NS. simpl. eauto.
  - apply WA in NS. rewrite NS.
    destruct (weight_map sb); simpl; [|eauto].
    destruct (select_names peft_config _); simpl; eauto.
Qed.

End Loader.

(** *** [get_aligned_matrix] and [apply_safelora] *)

Section Pipeline.
Context `{Torch}.

Lemma align_pair_shape_mismatch (w : World) (sl_base sl_align : SafetensorLoader)
    (devices name_base name_align : string) (tb ta : tensor) :
  get_tensor w sl_base name_base = Ok tb ->
  get_tensor w sl_align name_align = Ok ta ->
  shape tb <> shape ta ->
  align_pair w sl_base sl_align devices name_base name_align
  = Raise AssertionError.
Proof.
  intros GB GA N. unfold align_pair. rewrite GB, GA. simpl.
  unfold shape_eqb. destruct (list_eq_dec Nat.eq_dec (shape tb) (shape ta));
    [contradiction | reflexivity].
Qed.

(** The loop stops at the first pair that raises. *)
Lemma align_loop_first_raise (w : World) (sl_base sl_align : SafetensorLoader)
    (devices : string) (e : exn) (pairs : list (string * string)) :
  forall j name_base name_align acc,
    nth_error pairs j = Some (name_base, name_align) ->
    (forall k nb na, k < j -> nth_error pairs k = Some (nb, na) ->
       returns (align_pair w sl_base sl_align devices nb na) = true) ->
    align_pair w sl_base sl_align devices name_base name_align = Raise e ->
    align_loop w sl_base sl_align devices pairs acc = Raise e.
Proof.
  induction pairs as [|[x y] rest IH]; intros [|j] nb na acc N Before R;
    simpl in N; try discriminate.
  - inversion N; subst. simpl. now rewrite R.
  - simpl. destruct (returns_Ok _ (Before 0 x y (Nat.lt_0_succ j) eq_refl))
      as [vec ->]. simpl.
    apply (IH j nb na); auto.
    intros k nb' na' L. apply (Before (S k)). lia.
Qed.

(** [C5] When the tensors of a positionally matched base/aligned pair have
    different shapes (and the pairs before it were processed),
    [get_aligned_matrix] raises the assertion error of the shape check;
    [apply_safelora] then raises it too, before the adapter weights are
    read or projected, and leaves the configuration and the files as they
    were. *)
Theorem shape_mismatch_raises_before_projection (configs : SafeLoraConfig)
    (w : World) (p : string) (tm : option (list string))
    (sl_base sl_align : SafetensorLoader) (base_keys align_keys : list string)
    (base align : list string) (j : nat) (name_base name_align : string)
    (tb ta : tensor) :
  let peft_config := {| target_modules := tm |} in
  peft_file configs "adapter_config.json" = Ok p ->
  json_target_modules w p = Ok tm ->
  SafetensorLoader_init w (aligned_model_path configs) = Ok sl_align ->
  SafetensorLoader_init w (base_model_path configs) = Ok sl_base ->
  weight_map_keys sl_base = Ok base_keys ->
  select_names peft_config base_keys = Ok base ->
  weight_map_keys sl_align = Ok align_keys ->
  select_names peft_config align_keys = Ok align ->
  nth_error (combine base align) j = Some (name_base, name_align) ->
  get_tensor w sl_base name_base = Ok tb ->
  get_tensor w sl_align name_align = Ok ta ->
  shape tb <> shape ta ->
  (forall k nb na, k < j -> nth_error (combine base align) k = Some (nb, na) ->
     returns (align_pair w sl_base sl_align (devices configs) nb na) = true) ->
  get_aligned_matrix w (base_model_path configs) (aligned_model_path configs)
    (devices configs) peft_config = Raise AssertionError /\
  apply_safelora configs w = (configs, w, Raise AssertionError).
Proof.
  intros pc PF J IA IB KB SB KA SA N GB GA NE Before.
  assert (G : get_aligned_matrix w (base_model_path configs)
                (aligned_model_path configs) (devices configs) pc
              = Raise AssertionError).
  { unfold get_aligned_matrix. rewrite IA, IB. simpl.
    rewrite KB. simpl. rewrite SB. simpl. rewrite KA. simpl. rewrite SA. simpl.
    eapply align_loop_first_raise; eauto.
    eapply align_pair_shape_mismatch; eauto. }
  split; [exact G|].
  unfold apply_safelora, load_inputs. rewrite PF. simpl. rewrite J. simpl.
  fold pc. now rewrite G.
Qed.

(** The [threshold] branch binds [final_weights] and leaves
    [final_wieghts] unbound. *)
Lemma select_layers_threshold_finals (configs configs' : SafeLoraConfig)
    (l : loc) (v : list tensor) (h h' : Heap) (finals : Finals) :
  select_layers_type configs = "threshold" ->
  select_layers configs l v h = (configs', h', Ok finals) ->
  final_wieghts finals = None.
Proof.
  intros T. unfold select_layers. rewrite T. simpl.
  destruct (project_weights configs l v h) as [h1 [[fw cos]|e]];
    intros E; inversion E; reflexivity.
Qed.

(** [C6] (what the code does) [apply_safelora] never returns a mapping
    for a configuration built by the constructor, nor for any configuration
    with the threshold policy, and it writes no file: the function reads an
    attribute [saveWeights] that the dataclass does not declare (its field
    is [save_weights]), and the threshold branch binds [final_weights]
    while the write and the return read [final_wieghts].  When everything
    before line 246 succeeds the exception is AttributeError, or
    UnboundLocalError if the attribute was set by hand. *)
Theorem apply_safelora_never_returns (configs : SafeLoraConfig) (w : World) :
  saveWeights configs = Absent \/ select_layers_type configs = "threshold" ->
  exists e,
    snd (apply_safelora configs w) = Raise e /\
    snd (fst (apply_safelora configs w)) = w /\
    forall v peft_weights configs' h finals,
      load_inputs configs w = Ok (v, peft_weights) ->
      select_layers configs peft_weights_loc v (fresh_heap peft_weights)
        = (configs', h, Ok finals) ->
      e = match saveWeights configs with
          | Absent => AttributeError
          | Present _ => UnboundLocalError
          end.
Proof.
  intros Hyp. unfold apply_safelora.
  destruct (load_inputs configs w) as [[v pw]|e]; simpl.
  2:{ exists e. repeat split; auto. intros; discriminate. }
  destruct (select_layers configs peft_weights_loc v (fresh_heap pw))
    as [[c' h] [finals|e]] eqn:S; simpl.
  2:{ exists e. repeat split; auto. intros ? ? ? ? ? E E'.
      inversion E; subst. rewrite S in E'. discriminate. }
  assert (SW : saveWeights c' = saveWeights configs).
  { revert S. unfold select_layers.
    destruct (String.eqb (select_layers_type configs) "threshold").
    - destruct (project_weights configs _ v _) as [h1 [[fw cos]|e]];
        intros E; inversion E; reflexivity.
    - destruct (String.eqb (select_layers_type configs) "number").
      + destruct (project_weights configs _ v _) as [h1 [[fw cos]|e]];
          [|intros E; inversion E].
        destruct (last_item _) as [thrs|e]; [|intros E; inversion E].
        destruct (project_weights _ _ v h1) as [h2 [[fw2 cos2]|e]];
          intros E; inversion E; reflexivity.
      + intros E; inversion E; reflexivity. }
  unfold save_and_return. rewrite SW.
  destruct (saveWeights configs) as [|flag] eqn:A; simpl.
  - exists AttributeError. repeat split; auto.
  - destruct Hyp as [Hyp|T]; [discriminate|].
    rewrite (select_layers_threshold_finals _ _ _ _ T S).
    exists UnboundLocalError. destruct flag; simpl; repeat split; auto.
Qed.

End Pipeline.

(* ================================================================== *)
(** ** The properties on concrete stores *)
(* ================================================================== *)

Section Concrete.
Import Exact Examples.

Lemma adapter_wf (Bq Bv : tensor) : wf (adapter Bq Bv).
Proof.
  unfold wf, adapter. simpl.
  repeat constructor; simpl; intuition discriminate.
Qed.

(** Evaluates an equation whose left side is closed and names its value. *)
Ltac pin E := vm_compute in E; injection E as <-.

(** Two layers under the threshold 0.5.  The first has the score 0.28, and
    its [lora_B], [[7], [24]], is replaced by the projection [[7], [0]];
    the second has the score 0.6 and keeps its [lora_B], [[3], [4]]. *)
Lemma threshold_policy_example :
  exists h' cos,
    project_weights (config "threshold" half 1 true) 0 [P; P]
      (fresh_heap (adapter B_7_24 B_3_4)) = (h', Ok (0, cos)) /\
    nth_error cos 0 = Some (Fin (7 # 25)) /\
    get (h' 0) "q_proj.lora_B.weight" = Some (Matrix [[n 7]; [n 0]]) /\
    nth_error cos 1 = Some (Fin (3 # 5)) /\
    get (h' 0) "v_proj.lora_B.weight" = Some (Matrix [[n 3]; [n 4]]).
Proof.
  assert (V : valid_inputs (config "threshold" half 1 true)
                (fresh_heap (adapter B_7_24 B_3_4) 0) [P; P] = true)
    by (vm_compute; reflexivity).
  destruct (threshold_policy_replaces_iff_score_le
              (config "threshold" half 1 true) 0 [P; P]
              (fresh_heap (adapter B_7_24 B_3_4))
              eq_refl (adapter_wf B_7_24 B_3_4) V)
    as (h' & cos & _ & PW & Each).
  exists h', cos. split; [exact PW|].
  destruct (Each 0 "q_proj.lora_A.weight" "q_proj.lora_B.weight" eq_refl eq_refl)
    as (P0 & P1 & A & B & W & fW & ori & cs & x &
        GA & GB & NV & CP & M1 & M2 & M3 & CS & IT & NC & F).
  pin GA. pin GB. pin NV. pin CP. pin M1. pin M2. pin M3. pin CS. pin IT.
  vm_compute in NC. vm_compute in F.
  split; [exact NC|]. split; [exact F|].
  destruct (Each 1 "v_proj.lora_A.weight" "v_proj.lora_B.weight" eq_refl eq_refl)
    as (P0 & P1 & A & B & W & fW & ori & cs & x &
        GA & GB & NV & CP & M1 & M2 & M3 & CS & IT & NC' & F').
  pin GA. pin GB. pin NV. pin CP. pin M1. pin M2. pin M3. pin CS. pin IT.
  vm_compute in NC'. vm_compute in F'.
  split; [exact NC' | exact F'].
Defined.

Lemma same_keys_example :
  exists h' cos,
    project_weights (config "threshold" half 1 true) 0 [P; P]
      (fresh_heap (adapter B_7_24 B_3_4)) = (h', Ok (0, cos)) /\
    keys (h' 0) = keys (fresh_heap (adapter B_7_24 B_3_4) 0).
Proof.
  apply (project_weights_same_keys
           (config "threshold" half 1 true) 0 [P; P]
           (fresh_heap (adapter B_7_24 B_3_4))).
  - apply adapter_wf.
  - vm_compute. reflexivity.
Defined.

(** [C3] (counterexample) Two calls with the same configuration, the same
    mapping object and the same matrix, under the threshold policy: the
    first returns the score 0.6 and overwrites [lora_B], the second
    returns the score 1. *)
Lemma project_weights_twice_differs :
  let configs := config "threshold" (Fin (7 # 10)) 1 true in
  let h := fresh_heap one_layer in
  let first := project_weights configs 0 [P] h in
  let second := project_weights configs 0 [P] (fst first) in
  select_layers_type configs = "threshold" /\
  snd first = Ok (0, [Fin (3 # 5)]) /\
  snd second = Ok (0, [Fin 1]) /\
  snd first <> snd second /\
  fst first 0 <> h 0.
Proof.
  vm_compute. repeat split; try reflexivity; intros E; discriminate E.
Qed.

Lemma determined_by_contents_example :
  fst (project_weights (config "threshold" (Fin (7 # 10)) 1 true) 0 [P]
         (fresh_heap one_layer)) 0 =
  fst (project_weights (config "number" (Fin (7 # 10)) 5 false) 0 [P]
         (upd (fun _ => adapter B_7_24 B_5_12) 0 one_layer)) 0 /\
  snd (project_weights (config "threshold" (Fin (7 # 10)) 1 true) 0 [P]
         (fresh_heap one_layer)) =
  snd (project_weights (config "number" (Fin (7 # 10)) 5 false) 0 [P]
         (upd (fun _ => adapter B_7_24 B_5_12) 0 one_layer)).
Proof.
  apply (project_weights_determined_by_contents
           (config "threshold" (Fin (7 # 10)) 1 true)
           (config "number" (Fin (7 # 10)) 5 false) 0 [P]
           (fresh_heap one_layer)
           (upd (fun _ => adapter B_7_24 B_5_12) 0 one_layer));
    reflexivity.
Defined.

(** [C8] (counterexample) A configuration whose three paths are empty
    strings is constructed without error. *)
Lemma empty_paths_are_accepted :
  exists c,
    SafeLoraConfig_new (Some EmptyString) (Some EmptyString) (Some EmptyString) "number" half 10 "cuda" true
      = Ok c /\
    base_model_path c = Some EmptyString /\ aligned_model_path c = Some EmptyString /\
    peft_model_path c = Some EmptyString.
Proof.
  eexists. vm_compute. repeat split; reflexivity.
Qed.

(** [C2] (what the code does) The number policy with k = 1 and the default
    threshold 0.5, on two layers whose scores are 0.28 and 0.38462.  The
    inputs are read, the first pass returns these scores and, both being
    <= 0.5, has already stored both projections in the mapping; the
    threshold becomes 0.28, the smallest score, which one score reaches;
    the second pass runs on the projected mapping, finds the scores 1 and 1
    and replaces nothing; the mapping that results has both layers
    projected. *)
Theorem number_policy_first_pass_is_kept :
  let configs := config "number" half 1 true in
  let w := world zeros (adapter B_7_24 B_5_12) in
  let h := fresh_heap (adapter B_7_24 B_5_12) in
  let first := project_weights configs 0 [P; P] h in
  let thrs := Fin (7 # 25) in
  let second := project_weights (set_threshold configs thrs) 0 [P; P] (fst first) in
  load_inputs configs w = Ok ([P; P], adapter B_7_24 B_5_12) /\
  snd first = Ok (0, [Fin (7 # 25); Fin (19231 # 50000)]) /\
  last_item (slice_to (np_sort [Fin (7 # 25); Fin (19231 # 50000)]) 1) = Ok thrs /\
  List.length (filter (fun c => nle c thrs) [Fin (7 # 25); Fin (19231 # 50000)]) = 1 /\
  snd second = Ok (0, [Fin 1; Fin 1]) /\
  fst second 0 = fst first 0 /\
  threshold (fst (fst (select_layers configs 0 [P; P] h))) = thrs /\
  snd (fst (select_layers configs 0 [P; P] h)) 0 =
    adapter (Matrix [[n 7]; [n 0]]) (Matrix [[n 5]; [n 0]]) /\
  snd (select_layers configs 0 [P; P] h) =
    Ok {| final_weights := None; final_wieghts := Some 0 |}.
Proof.
  vm_compute. repeat split; reflexivity.
Qed.

(** The aligned [q_proj] weight is 1x2 and the base one 2x2. *)
Lemma shape_mismatch_example :
  get_aligned_matrix (world zeros_1x2 (adapter B_7_24 B_5_12))
    (Some "base") (Some "aligned") "cpu"
    {| target_modules := Some ["q_proj"; "v_proj"] |} = Raise AssertionError /\
  apply_safelora (config "threshold" half 1 true)
    (world zeros_1x2 (adapter B_7_24 B_5_12)) =
    (config "threshold" half 1 true, world zeros_1x2 (adapter B_7_24 B_5_12),
     Raise AssertionError).
Proof.
  eapply (shape_mismatch_raises_before_projection
            (config "threshold" half 1 true)
            (world zeros_1x2 (adapter B_7_24 B_5_12))) with (j := 0).
  - reflexivity.
  - reflexivity.
  - reflexivity.
  - reflexivity.
  - reflexivity.
  - reflexivity.
  - reflexivity.
  - reflexivity.
  - reflexivity.
  - reflexivity.
  - reflexivity.
  - vm_compute. discriminate.
  - intros k nb na L. lia.
Defined.

(** The pipeline runs to line 246 and stops there. *)
Lemma apply_safelora_example :
  exists e,
    snd (apply_safelora (config "threshold" half 1 true)
           (world zeros (adapter B_7_24 B_5_12))) = Raise e /\
    snd (fst (apply_safelora (config "threshold" half 1 true)
                (world zeros (adapter B_7_24 B_5_12))))
      = world zeros (adapter B_7_24 B_5_12) /\
    forall v peft_weights configs' h finals,
      load_inputs (config "threshold" half 1 true)
        (world zeros (adapter B_7_24 B_5_12)) = Ok (v, peft_weights) ->
      select_layers (config "threshold" half 1 true) peft_weights_loc v
        (fresh_heap peft_weights) = (configs', h, Ok finals) ->
      e = match saveWeights (config "threshold" half 1 true) with
          | Absent => AttributeError
          | Present _ => UnboundLocalError
          end.
Proof.
  apply (apply_safelora_never_returns (config "threshold" half 1 true)
           (world zeros (adapter B_7_24 B_5_12))).
  left. reflexivity.
Defined.

(** On that input the exception is the missing attribute. *)
Lemma apply_safelora_example_exception :
  snd (apply_safelora (config "threshold" half 1 false)
         (world zeros (adapter B_7_24 B_5_12))) = Raise AttributeError /\
  snd (apply_safelora (config "number" half 1 true)
         (world zeros (adapter B_7_24 B_5_12))) = Raise AttributeError.
Proof.
  vm_compute. split; reflexivity.
Qed.

(** The base store is the single file [base/model.safetensors]; the name
    carries a prefix the file does not use. *)
Lemma get_tensor_example :
  get_tensor world_single_file
    {| model_path := "base/model.safetensors"; is_sharded := false;
       weight_map := None; base_model_prefix := Absent |}
    "base_model.model.q_proj.weight" = Raise AttributeError.
Proof.
  apply (@get_tensor_unknown_name_raises_AttributeError _
           world_single_file (Some "base")
           {| model_path := "base/model.safetensors"; is_sharded := false;
              weight_map := None; base_model_prefix := Absent |}
           "base_model.model.q_proj.weight" "base/model.safetensors"
           (store D D)); reflexivity.
Defined.

Lemma single_file_example :
  exists e,
    get_aligned_matrix world_single_file (Some "base") (Some "aligned") "cpu"
      {| target_modules := Some ["q_proj"; "v_proj"] |} = Raise e.
Proof.
  apply (@single_file_store_fails_alignment _
           world_single_file (Some "base") (Some "aligned") "cpu"
           {| target_modules := Some ["q_proj"; "v_proj"] |}
           {| model_path := "base/model.safetensors"; is_sharded := false;
              weight_map := None; base_model_prefix := Absent |}).
  - left. reflexivity.
  - reflexivity.
Defined.

End Concrete.

(* ================================================================== *)
(** ** Further properties of the loader *)
(* ================================================================== *)

Unset Implicit Arguments.

(** *** Strings *)

Lemma length_append (a s : string) :
  String.length (a ++ s) = String.length a + String.length s.
Proof. induction a as [|c a IH]; simpl; auto. Qed.

Lemma substring_whole (s : string) : substring 0 (String.length s) s = s.
Proof. induction s as [|c s IH]; simpl; auto. now rewrite IH. Qed.

Lemma substring_after (a s : string) :
  substring (String.length a) (String.length s) (a ++ s) = s.
Proof. induction a as [|c a IH]; simpl; auto. apply substring_whole. Qed.

Lemma endswith_append (a s : string) : endswith (a ++ s) s = true.
Proof.
  unfold endswith. rewrite length_append.
  replace (String.length a + String.length s - String.length s)
    with (String.length a) by lia.
  rewrite substring_after, String.eqb_refl, andb_true_r.
  apply Nat.leb_le. lia.
Qed.

Lemma append_assoc (a b c : string) : ((a ++ b) ++ c = a ++ (b ++ c))%string.
Proof. induction a as [|x a IH]; simpl; auto. now rewrite IH. Qed.

Lemma str_drop_prefix_dot (p rest : string) (c : ascii) :
  str_drop (String.length p + 1) (p ++ String c rest) = rest.
Proof. induction p as [|x p IH]; simpl; auto. Qed.

(** *** Dictionaries built from items *)

Section ItemsFacts.
Variable V : Type.

Lemma get_not_in_keys (d : dict V) (k : string) :
  ~ In k (keys d) -> get d k = None.
Proof.
  intros N. destruct (get d k) as [v|] eqn:G; auto.
  apply get_in_keys in G. contradiction.
Qed.

Lemma fold_setitem_get (items : list (string * V)) :
  forall (acc : dict V) (k : string) (v : V),
    get (fold_left (fun d kv => setitem d (fst kv) (snd kv)) items acc) k = Some v ->
    In (k, v) items \/ get acc k = Some v.
Proof.
  induction items as [|[k0 v0] items IH]; intros acc k v G; simpl in *; auto.
  destruct (IH _ _ _ G) as [I|G']; auto.
  destruct (String.eqb k0 k) eqn:E.
  - apply String.eqb_eq in E. subst k0.
    rewrite get_setitem_same in G'. inversion G'; auto.
  - apply String.eqb_neq in E. rewrite get_setitem_other in G' by congruence.
    auto.
Qed.

Lemma fold_setitem_none (items : list (string * V)) :
  forall (acc : dict V) (k : string),
    get acc k = None -> ~ In k (map fst items) ->
    get (fold_left (fun d kv => setitem d (fst kv) (snd kv)) items acc) k = None.
Proof.
  induction items as [|[k0 v0] items IH]; intros acc k G N; simpl in *; auto.
  apply IH; [|tauto].
  rewrite get_setitem_other; [exact G|]. intros ->. tauto.
Qed.

(** An entry of [{k: v for ...}] comes from one of the items. *)
Lemma of_items_get (items : list (string * V)) (k : string) (v : V) :
  get (of_items items) k = Some v -> In (k, v) items.
Proof.
  intros G. destruct (fold_setitem_get items [] k v G) as [I|G']; auto.
  discriminate.
Qed.

Lemma of_items_none (items : list (string * V)) (k : string) :
  ~ In k (map fst items) -> get (of_items items) k = None.
Proof. intros N. now apply fold_setitem_none. Qed.

End ItemsFacts.

(** *** [SafetensorLoader.__init__] *)

Section LoaderInit.
Context `{Torch}.

Lemma build_weight_map_ok (file_map : dict string) (items : list (string * string)) :
  forall wm,
    build_weight_map file_map items = Ok wm ->
    keys wm = map fst items /\
    forall name path, get wm name = Some path ->
      exists shard, In (name, shard) items /\ get file_map shard = Some path.
Proof.
  induction items as [|[k v] items IH]; intros wm E; simpl in E.
  - inversion E; subst. split; auto. intros ? ? G. discriminate.
  - bind_inv E. inversion E; subst. destruct (IH _ Ea0) as [K G].
    split; [simpl; now rewrite K|].
    intros name path Gn. simpl in Gn.
    destruct (String.eqb k name) eqn:Ek.
    + apply String.eqb_eq in Ek. subst k. inversion Gn; subst.
      exists v. split; [now left|]. unfold getitem, of_option in Ea.
      destruct (get file_map v); congruence.
    + destruct (G _ _ Gn) as (shard & I & F). exists shard. split; [now right|auto].
Qed.

Lemma build_weight_map_missing (file_map : dict string)
    (items : list (string * string)) (name shard : string) :
  In (name, shard) items -> get file_map shard = None ->
  build_weight_map file_map items = Raise KeyError.
Proof.
  induction items as [|[k v] items IH]; intros I G; simpl in *; [tauto|].
  unfold getitem, of_option.
  destruct (get file_map v) as [f|] eqn:F; simpl; auto.
  destruct I as [E|I]; [inversion E; subst; congruence|].
  now rewrite IH.
Qed.

Lemma model_path_is_normalized (w : World) (p : string) (self : SafetensorLoader) :
  SafetensorLoader_init w (Some p) = Ok self ->
  model_path self = normalized_path p /\
  is_sharded self = negb (path_exists w (normalized_path p)).
Proof.
  unfold SafetensorLoader_init, normalized_path.
  intros E. apply bind_Ok in E. destruct E as (_ & _ & E).
  set (q := if negb (endswith p suffix) then path_join p suffix else p) in *.
  destruct (path_exists w q) eqn:X; simpl in E.
  - inversion E; subst; simpl. auto.
  - destruct (checkpoint_shard_files w (rpartition_head q)) as [[files wm]|e].
    + bind_inv E. inversion E; subst; simpl. auto.
    + destruct (is_OSError e); discriminate.
Qed.

(** [X1] The path a loader keeps always ends in [model.safetensors], whether
    the caller named the directory or the file. *)
Theorem loader_model_path_ends_with_suffix (w : World) (p : option string)
    (self : SafetensorLoader) :
  SafetensorLoader_init w p = Ok self ->
  endswith (model_path self) "model.safetensors" = true.
Proof.
  destruct p as [p|]; [|discriminate]. intros E.
  apply model_path_is_normalized in E. destruct E as [-> _].
  unfold normalized_path. fold suffix.
  destruct (endswith p suffix) eqn:S; simpl; auto.
  unfold path_join. replace (String.prefix "/" suffix) with false by reflexivity.
  destruct (String.eqb p EmptyString || endswith p "/").
  - apply endswith_append.
  - rewrite <- append_assoc. apply endswith_append.
Qed.

Lemma weight_map_of_index (w : World) (p : option string)
    (self : SafetensorLoader) (files : list string) (index : dict string) :
  SafetensorLoader_init w p = Ok self ->
  is_sharded self = true ->
  checkpoint_shard_files w (rpartition_head (model_path self)) = Ok (files, index) ->
  exists wm,
    weight_map self = Some wm /\
    keys wm = keys index /\
    forall name path, get wm name = Some path ->
      In path files /\ In (name, rpartition_tail path) index.
Proof.
  destruct p as [p|]; [|discriminate]. intros E S C.
  destruct (model_path_is_normalized _ _ _ E) as [MP _]. rewrite MP in C.
  revert E. unfold SafetensorLoader_init. fold (normalized_path p).
  intros E. apply bind_Ok in E. destruct E as (_ & _ & E).
  destruct (path_exists w (normalized_path p)); simpl in E.
  - inversion E; subst. discriminate.
  - rewrite C in E. bind_inv E. inversion E; subst; simpl.
    destruct (build_weight_map_ok _ _ _ Ea) as [K G].
    exists a. repeat split; auto.
    + destruct (G _ _ H0) as (shard & _ & F).
      apply of_items_get, in_map_iff in F. destruct F as (k & Ek & I).
      inversion Ek; subst. exact I.
    + destruct (G _ _ H0) as (shard & I & F).
      apply of_items_get, in_map_iff in F. destruct F as (k & Ek & _).
      inversion Ek; subst. exact I.
Qed.

(** [X2] The [weight_map] of a sharded loader has the tensor names of the index,
    in the same order, and sends each name to one of the resolved shard
    files, the one whose base name the index gives for that name. *)
Theorem sharded_weight_map_follows_index (w : World) (p : option string)
    (self : SafetensorLoader) (files : list string) (index : dict string) :
  SafetensorLoader_init w p = Ok self ->
  is_sharded self = true ->
  checkpoint_shard_files w (rpartition_head (model_path self)) = Ok (files, index) ->
  exists wm,
    weight_map self = Some wm /\
    keys wm = keys index /\
    forall name path, get wm name = Some path ->
      In path files /\ In (name, rpartition_tail path) index.
Proof.
  intros I S C. exact (weight_map_of_index w p self files index I S C).
Qed.

(** [X3] When the index names a shard that is not among the resolved files,
    the constructor raises KeyError. *)
Theorem loader_init_unresolved_shard_KeyError (w : World) (p : string)
    (files : list string) (index : dict string) (name shard : string) :
  path_exists w p = true ->
  path_exists w (normalized_path p) = false ->
  checkpoint_shard_files w (rpartition_head (normalized_path p)) = Ok (files, index) ->
  In (name, shard) index ->
  (forall f, In f files -> rpartition_tail f <> shard) ->
  SafetensorLoader_init w (Some p) = Raise KeyError.
Proof.
  intros X NX C I N. unfold SafetensorLoader_init. rewrite X. simpl.
  fold (normalized_path p). rewrite NX. simpl. rewrite C.
  rewrite (build_weight_map_missing _ _ _ _ I); auto.
  apply of_items_none. rewrite map_map. simpl. intros J.
  apply in_map_iff in J. destruct J as (f & E & J). apply (N f J E).
Qed.

(** [X4] The constructor never lets an OSError out: a failed download surfaces
    as RuntimeError, a missing index as FileNotFoundError. *)
Theorem loader_init_exceptions (w : World) (p : option string) (e : exn) :
  SafetensorLoader_init w p = Raise e ->
  is_OSError e = true -> e = FileNotFoundError.
Proof.
  unfold SafetensorLoader_init. destruct p as [p|]; [|intros E; inversion E; discriminate].
  destruct (path_exists w p); simpl.
  2:{ destruct (snapshot_download w p); simpl;
        [|intros E; inversion E; discriminate]. 
      destruct (negb (path_exists w _)); [|discriminate].
      destruct (checkpoint_shard_files w _) as [[files index]|e'].
      - destruct (build_weight_map _ index) eqn:B; simpl; [discriminate|].
        intros E; inversion E; subst.
        assert (e = KeyError); [|subst; discriminate].
        clear - B. revert B. generalize (of_items
          (map (fun k : string => (rpartition_tail k, k)) files)).
        intros fm. induction index as [|[k v] index IH]; simpl; [discriminate|].
        unfold getitem, of_option. destruct (get fm v); simpl; [|congruence].
        destruct (build_weight_map fm index); simpl; [discriminate|]. auto.
      - destruct (is_OSError e') eqn:O; intros E; inversion E; subst; auto.
        congruence. }
  destruct (negb (path_exists w _)); [|discriminate].
  destruct (checkpoint_shard_files w _) as [[files index]|e'].
  - destruct (build_weight_map _ index) eqn:B; simpl; [discriminate|].
    intros E; inversion E; subst.
    assert (e = KeyError); [|subst; discriminate].
    clear - B. revert B. generalize (of_items
      (map (fun k : string => (rpartition_tail k, k)) files)).
    intros fm. induction index as [|[k v] index IH]; simpl; [discriminate|].
    unfold getitem, of_option. destruct (get fm v); simpl; [|congruence].
    destruct (build_weight_map fm index); simpl; [discriminate|]. auto.
  - destruct (is_OSError e') eqn:O; intros E; inversion E; subst; auto.
    congruence.
Qed.

End LoaderInit.

(** *** [SafetensorLoader.get_tensor] *)

Section LoaderGetTensor.
Context `{Torch}.

Lemma get_tensor_exact_name (w : World) (self : SafetensorLoader)
    (name file_path : string) (f : dict tensor) (t : tensor) :
  file_path_of self name = Ok file_path ->
  safetensors w file_path = Ok f ->
  get f name = Some t ->
  get_tensor w self name = Ok t.
Proof.
  intros FP S G. unfold get_tensor. rewrite FP. simpl. rewrite S. simpl.
  unfold file_get_tensor. now rewrite G.
Qed.

(** [X5] On a sharded store, a name the index lists is read from one of the
    resolved shard files, the one whose base name the index gives for it:
    when that file holds the name, [get_tensor] returns the tensor stored
    there, and the missing attribute [base_model_prefix] is not touched. *)
Theorem get_tensor_reads_indexed_shard (w : World) (p : option string)
    (self : SafetensorLoader) (files : list string) (index : dict string)
    (name : string) :
  SafetensorLoader_init w p = Ok self ->
  is_sharded self = true ->
  checkpoint_shard_files w (rpartition_head (model_path self)) = Ok (files, index) ->
  In name (keys index) ->
  exists path,
    In path files /\ In (name, rpartition_tail path) index /\
    file_path_of self name = Ok path /\
    forall f t, safetensors w path = Ok f -> get f name = Some t ->
      get_tensor w self name = Ok t.
Proof.
  intros I S C N.
  destruct (weight_map_of_index w p self files index I S C)
    as (wm & W & K & G).
  rewrite <- K in N. apply in_keys_get in N. destruct N as [path GP].
  destruct (G _ _ GP) as [F X].
  assert (FP : file_path_of self name = Ok path).
  { unfold file_path_of, getitem. now rewrite S, W, GP. }
  exists path. repeat split; auto.
  intros f t SF GF. eapply get_tensor_exact_name; eauto.
Qed.

(** [X6] On a sharded loader a name that the index does not list raises
    KeyError, and no file is opened for it. *)
Theorem get_tensor_unindexed_name_KeyError (w w' : World) (p : option string)
    (self : SafetensorLoader) (files : list string) (index : dict string)
    (name : string) :
  SafetensorLoader_init w p = Ok self ->
  is_sharded self = true ->
  checkpoint_shard_files w (rpartition_head (model_path self)) = Ok (files, index) ->
  ~ In name (keys index) ->
  get_tensor w' self name = Raise KeyError.
Proof.
  intros I S C N.
  destruct (weight_map_of_index w p self files index I S C)
    as (wm & W & K & _).
  unfold get_tensor, file_path_of. rewrite S, W. simpl.
  unfold getitem. rewrite get_not_in_keys; [reflexivity|]. now rewrite K.
Qed.

(** [X7] With [base_model_prefix] set by the caller, a name the file does not
    hold is looked up once more without its first [len(prefix) + 1]
    characters, in the same file, whether or not the name starts with the
    prefix; for a name [prefix.rest] that is [rest].  A prefix that is None
    or empty lets the SafetensorError through. *)
Theorem get_tensor_with_prefix_set (w : World) (self : SafetensorLoader)
    (prefix : option string) (name file_path : string) (f : dict tensor) :
  base_model_prefix self = Present prefix ->
  file_path_of self name = Ok file_path ->
  safetensors w file_path = Ok f ->
  get f name = None ->
  get_tensor w self name =
    (if truthy prefix
     then file_get_tensor f (str_drop (prefix_len prefix + 1) name)
     else Raise SafetensorError) /\
  (forall p rest, prefix = Some p -> p <> EmptyString ->
     name = (p ++ "." ++ rest)%string ->
     get_tensor w self name = file_get_tensor f rest).
Proof.
  intros A FP S G.
  assert (E : get_tensor w self name =
              if truthy prefix
              then file_get_tensor f (str_drop (prefix_len prefix + 1) name)
              else Raise SafetensorError).
  { unfold get_tensor. rewrite FP. simpl. rewrite S. simpl.
    unfold file_get_tensor at 1. rewrite G. simpl. rewrite A. reflexivity. }
  split; [exact E|].
  intros p rest -> NE ->. rewrite E. simpl.
  destruct (String.eqb p EmptyString) eqn:X.
  - apply String.eqb_eq in X. contradiction.
  - simpl. now rewrite str_drop_prefix_dot.
Qed.

End LoaderGetTensor.

(* ================================================================== *)
(** ** Further properties of [get_aligned_matrix] *)
(* ================================================================== *)

Section Alignment.
Context `{Torch}.

(** [X8] The names selected are the names that contain one of the target
    modules, in the order of the store; when the adapter configuration has
    no [target_modules], the lookup raises KeyError for a store with at
    least one tensor and is not evaluated for an empty store. *)
Theorem select_names_filters (peft_config : PeftConfig) (names : list string) :
  select_names peft_config names =
    match target_modules peft_config with
    | Some tm =>
        Ok (filter (fun name => existsb (fun v => str_in v name) tm) names)
    | None =>
        match names with
        | [] => Ok []
        | _ :: _ => Raise KeyError
        end
    end.
Proof.
  destruct (target_modules peft_config) as [tm|] eqn:T.
  - induction names as [|name names IH]; simpl; auto.
    unfold get_target_modules. rewrite T. simpl. rewrite IH. simpl. reflexivity.
  - destruct names as [|name names]; simpl; auto.
    unfold get_target_modules. now rewrite T.
Qed.

Lemma align_loop_ok (w : World) (sl_base sl_align : SafetensorLoader)
    (devices : string) (pairs : list (string * string)) :
  forall acc v,
    align_loop w sl_base sl_align devices pairs acc = Ok v ->
    exists vs,
      v = acc ++ vs /\ List.length vs = List.length pairs /\
      forall j nb na, nth_error pairs j = Some (nb, na) ->
        exists vec,
          align_pair w sl_base sl_align devices nb na = Ok vec /\
          nth_error vs j = Some vec.
Proof.
  induction pairs as [|[x y] rest IH]; intros acc v E; simpl in E.
  - inversion E; subst. exists []. rewrite app_nil_r. repeat split; auto.
    intros [|j] ? ? N; discriminate.
  - apply bind_Ok in E. destruct E as (vec & A & E).
    destruct (IH _ _ E) as (vs & -> & L & Each).
    exists (vec :: vs). rewrite <- app_assoc. repeat split; simpl; auto.
    intros [|j] nb na N; simpl in N.
    + inversion N; subst. eauto.
    + apply Each, N.
Qed.

(** [X9] When [get_aligned_matrix] returns, both loaders were built, and it
    returns one matrix for each position at which both stores select a
    name: as many matrices as the shorter of the two selections has names
    (the rest of the longer one is dropped without an error), the j-th
    matrix computed from the j-th selected base name and the j-th selected
    aligned name, whatever these names are. *)
Theorem get_aligned_matrix_pairs_by_position (w : World)
    (base_model_path aligned_model_path : option string) (devices : string)
    (peft_config : PeftConfig) (v : list tensor) :
  get_aligned_matrix w base_model_path aligned_model_path devices peft_config
    = Ok v ->
  exists sl_base sl_align base_keys align_keys base align,
    SafetensorLoader_init w base_model_path = Ok sl_base /\
    SafetensorLoader_init w aligned_model_path = Ok sl_align /\
    weight_map_keys sl_base = Ok base_keys /\
    weight_map_keys sl_align = Ok align_keys /\
    select_names peft_config base_keys = Ok base /\
    select_names peft_config align_keys = Ok align /\
    List.length v = Nat.min (List.length base) (List.length align) /\
    forall j name_base name_align,
      nth_error base j = Some name_base ->
      nth_error align j = Some name_align ->
      exists vec,
        align_pair w sl_base sl_align devices name_base name_align = Ok vec /\
        nth_error v j = Some vec.
Proof.
  unfold get_aligned_matrix. intros E. bind_inv E.
  destruct (align_loop_ok _ _ _ _ _ _ _ E) as (vs & -> & L & Each).
  exists a0, a, a1, a3, a2, a4. simpl. repeat split; auto.
  - now rewrite L, length_combine.
  - intros j nb na Nb Na. apply Each.
    clear - Nb Na. revert a4 j Nb Na.
    induction a2 as [|x base IH]; intros [|y align] [|j] Nb Na;
      simpl in *; try discriminate.
    + congruence.
    + auto.
Qed.

End Alignment.

(* ================================================================== *)
(** ** Further properties of [project_weights] *)
(* ================================================================== *)

Section ProjectMore.
Context `{Torch}.
Variable configs : SafeLoraConfig.
Variable ori : dict tensor.
Variable v : list tensor.
Variable l : loc.

(** A loop that returns has scored every pair, in order, from [ori]. *)
Lemma project_loop_returns (pairs : list (string * string)) :
  forall s h h' s',
    project_loop configs ori v l pairs s h = (h', Ok s') ->
    idx s' = idx s + List.length pairs /\
    exists cs,
      cos_total s' = cos_total s ++ cs /\
      List.length cs = List.length pairs /\
      forall j name_A name_B,
        nth_error pairs j = Some (name_A, name_B) ->
        exists W c,
          candidate configs ori v (idx s + j) name_A name_B = Ok (W, c) /\
          nth_error cs j = Some c.
Proof.
  induction pairs as [|[name_A name_B] rest IH]; intros s h h' s' E; simpl in E.
  - inversion E; subst. split; [simpl; lia|].
    exists []. rewrite app_nil_r. repeat split; auto.
    intros [|j] ? ? N; discriminate.
  - unfold project_step in E.
    destruct (candidate configs ori v (idx s) name_A name_B) as [[W c]|e] eqn:C;
      [|discriminate].
    destruct (selected configs ori name_B W c (i s)) as [[i' new_B]|e];
      [|discriminate].
    destruct (distance _ name_B W) as [dist|e]; [|discriminate].
    apply IH in E. simpl in E. destruct E as (I & cs & CT & L & Each).
    split; [simpl; lia|].
    exists (c :: cs). rewrite CT, <- app_assoc. repeat split; simpl; auto.
    intros [|j] nA nB N; simpl in N.
    + inversion N; subst. exists W, c. rewrite Nat.add_0_r. auto.
    + destruct (Each j nA nB N) as (W' & c' & C' & N').
      exists W', c'. rewrite Nat.add_succ_r. auto.
Qed.

Lemma project_loop_app (p1 p2 : list (string * string)) :
  forall s h,
    project_loop configs ori v l (p1 ++ p2) s h =
    match project_loop configs ori v l p1 s h with
    | (h1, Ok s1) => project_loop configs ori v l p2 s1 h1
    | (h1, Raise e) => (h1, Raise e)
    end.
Proof.
  induction p1 as [|[name_A name_B] p1 IH]; intros s h; simpl; auto.
  destruct (project_step configs ori v l name_A name_B s h) as [h1 [s1|e]]; auto.
Qed.

(** The loop stops at the first pair whose candidate cannot be computed;
    the pairs before it have been assigned by then. *)
Lemma project_loop_first_failure (p1 p2 : list (string * string))
    (name_A name_B : string) (e : exn) (s : Locals) (h : Heap) :
  keys (h l) = keys ori ->
  NoDup (map snd p1) ->
  layers_valid configs ori v p1 (idx s) = true ->
  candidate configs ori v (idx s + List.length p1) name_A name_B = Raise e ->
  exists h',
    project_loop configs ori v l (p1 ++ (name_A, name_B) :: p2) s h
      = (h', Raise e) /\
    forall j nA nB, nth_error p1 j = Some (nA, nB) ->
      exists W c B,
        candidate configs ori v (idx s + j) nA nB = Ok (W, c) /\
        get ori nB = Some B /\
        get (h' l) nB = Some (if float_le c (threshold configs) then W else B).
Proof.
  intros K ND LV C.
  destruct (project_loop_ok configs ori v l p1 s h K ND LV)
    as (h' & s' & cs & L & _ & Each).
  exists h'. split.
  - rewrite project_loop_app, L. simpl. unfold project_step.
    destruct (project_loop_returns _ _ _ _ _ L) as [I _].
    now rewrite I, C.
  - intros j nA nB N. destruct (Each j nA nB N) as (W & c & B & ? & ? & ? & ?).
    exists W, c, B. auto.
Qed.

End ProjectMore.

Section ProjectWeightsMore.
Context `{Torch}.

Lemma project_weights_scores (configs : SafeLoraConfig) (l l' : loc)
    (v : list tensor) (h h' : Heap) (cos : list pyfloat) :
  project_weights configs l v h = (h', Ok (l', cos)) ->
  List.length cos = List.length (layers (h l)) /\
  List.length (layers (h l)) <= List.length v /\
  forall j name_A name_B,
    nth_error (layers (h l)) j = Some (name_A, name_B) ->
    exists W c,
      candidate configs (h l) v j name_A name_B = Ok (W, c) /\
      nth_error cos j = Some c.
Proof.
  unfold project_weights. fold (layers (h l)).
  destruct (project_loop _ _ _ _ _ _ _) as [h1 [s1|e]] eqn:L; intros E;
    inversion E; subst h' l' cos.
  destruct (project_loop_returns _ _ _ _ _ _ _ _ _ L) as (_ & cs & CT & Len & Each).
  simpl in CT. rewrite CT. split; [exact Len|]. split; [|exact Each].
  destruct (Nat.le_gt_cases (List.length (layers (h l))) (List.length v))
    as [|G]; auto.
  destruct (nth_error (layers (h l)) (List.length v)) as [[nA nB]|] eqn:N.
  - destruct (Each _ _ _ N) as (W & c & C & _). simpl in C.
    apply candidate_inv in C. destruct C as (_ & P0 & _ & _ & _ & I & _).
    unfold index, of_option in I.
    rewrite (proj2 (nth_error_None v (List.length v)) (Nat.le_refl _)) in I.
    discriminate.
  - apply nth_error_None in N. lia.
Qed.

(** [X10] A call that returns gives one score per layer, in the order of the
    layers, each computed from the contents the mapping had when the call
    began; it returns only if there are at least as many alignment matrices
    as layers. *)
Theorem project_weights_scores_per_layer (configs : SafeLoraConfig) (l l' : loc)
    (v : list tensor) (h h' : Heap) (cos : list pyfloat) :
  project_weights configs l v h = (h', Ok (l', cos)) ->
  List.length cos = List.length (layers (h l)) /\
  List.length (layers (h l)) <= List.length v /\
  forall j name_A name_B,
    nth_error (layers (h l)) j = Some (name_A, name_B) ->
    exists W c,
      candidate configs (h l) v j name_A name_B = Ok (W, c) /\
      nth_error cos j = Some c.
Proof.
  intros E. exact (project_weights_scores configs l l' v h h' cos E).
Qed.

Lemma layers_split (d : dict tensor) (j : nat) (name_A name_B : string) :
  nth_error (layers d) j = Some (name_A, name_B) ->
  exists p2, layers d = firstn j (layers d) ++ (name_A, name_B) :: p2 /\
             List.length (firstn j (layers d)) = j.
Proof.
  intros N. destruct (nth_error_split _ _ N) as (l1 & l2 & E & L).
  exists l2.
  assert (F : firstn j (layers d) = l1).
  { rewrite E, <- L. rewrite firstn_app, firstn_all, Nat.sub_diag. simpl.
    apply app_nil_r. }
  rewrite F. split; [exact E | exact L].
Qed.

(** [X11] A call does not undo what it did when a later layer fails: if the
    candidate of layer j raises and the layers before it are valid, the
    call raises that exception, and the mapping of the caller already holds
    the selection of every layer before j. *)
Theorem project_weights_raise_keeps_earlier_layers (configs : SafeLoraConfig)
    (l : loc) (v : list tensor) (h : Heap) (j : nat)
    (name_A name_B : string) (e : exn) :
  wf (h l) ->
  nth_error (layers (h l)) j = Some (name_A, name_B) ->
  layers_valid configs (h l) v (firstn j (layers (h l))) 0 = true ->
  candidate configs (h l) v j name_A name_B = Raise e ->
  snd (project_weights configs l v h) = Raise e /\
  forall k nA nB, k < j -> nth_error (layers (h l)) k = Some (nA, nB) ->
    exists W c B,
      candidate configs (h l) v k nA nB = Ok (W, c) /\
      get (h l) nB = Some B /\
      get (fst (project_weights configs l v h) l) nB =
        Some (if float_le c (threshold configs) then W else B).
Proof.
  intros W N LV C.
  destruct (layers_split _ _ _ _ N) as (p2 & E & Len).
  assert (ND : NoDup (map snd (firstn j (layers (h l))))).
  { pose proof (layers_NoDup W) as ND. rewrite E, map_app in ND.
    eapply NoDup_app_remove_r; eauto. }
  destruct (project_loop_first_failure configs (h l) v l
              (firstn j (layers (h l))) p2 name_A name_B e
              {| idx := 0; i := 0; dis := []; cos_total := [] |} h
              eq_refl ND LV) as (h' & L & Each).
  { simpl. now rewrite Len. }
  rewrite <- E in L. unfold project_weights. fold (layers (h l)).
  rewrite L. simpl. split; auto.
  intros k nA nB Lt Nk. apply Each.
  rewrite E in Nk. rewrite nth_error_app1 in Nk by lia. exact Nk.
Qed.

(** [X12] With fewer alignment matrices than layers, the call raises IndexError
    at the first layer that has none, after it has assigned the layers
    before it. *)
Theorem project_weights_too_few_matrices_IndexError (configs : SafeLoraConfig)
    (l : loc) (v : list tensor) (h : Heap) :
  wf (h l) ->
  List.length v < List.length (layers (h l)) ->
  layers_valid configs (h l) v (firstn (List.length v) (layers (h l))) 0 = true ->
  snd (project_weights configs l v h) = Raise IndexError.
Proof.
  intros W Lt LV.
  destruct (nth_error (layers (h l)) (List.length v)) as [[nA nB]|] eqn:N.
  2:{ apply nth_error_None in N. lia. }
  destruct (layers_split _ _ _ _ N) as (p2 & E & Len).
  assert (ND : NoDup (map snd (firstn (List.length v) (layers (h l))))).
  { pose proof (layers_NoDup W) as ND. rewrite E, map_app in ND.
    eapply NoDup_app_remove_r; eauto. }
  assert (C : candidate configs (h l) v (List.length v) nA nB = Raise IndexError).
  { assert (I : In nA (keys (h l))).
    { apply nth_error_In in N. unfold layers in N. apply in_combine_l in N.
      unfold names_with in N. apply filter_In in N. tauto. }
    apply in_keys_get in I. destruct I as [A GA].
    unfold candidate, getitem. rewrite GA. simpl. unfold index.
    now rewrite (proj2 (nth_error_None v (List.length v)) (Nat.le_refl _)). }
  destruct (project_loop_first_failure configs (h l) v l
              (firstn (List.length v) (layers (h l))) p2 nA nB IndexError
              {| idx := 0; i := 0; dis := []; cos_total := [] |} h
              eq_refl ND LV) as (h' & L & _).
  { simpl. now rewrite Len. }
  rewrite <- E in L. unfold project_weights. fold (layers (h l)).
  now rewrite L.
Qed.

End ProjectWeightsMore.

(* ================================================================== *)
(** ** Further properties of [apply_safelora] *)
(* ================================================================== *)

Section Policy.
Context `{Torch}.

Lemma project_weights_returns_loc (configs : SafeLoraConfig) (l l' : loc)
    (v : list tensor) (h h' : Heap) (cos : list pyfloat) :
  project_weights configs l v h = (h', Ok (l', cos)) -> l' = l.
Proof.
  unfold project_weights.
  destruct (project_loop _ _ _ _ _ _ _) as [h1 [s1|e]]; intros E;
    inversion E; reflexivity.
Qed.

Lemma np_insert_In (x y : pyfloat) (l : list pyfloat) :
  In x (np_insert y l) -> x = y \/ In x l.
Proof.
  induction l as [|z l IH]; simpl.
  - intros [E|[]]; auto.
  - destruct (np_le y z); simpl.
    + intros [E|I]; auto.
    + intros [E|I]; auto. destruct (IH I); auto.
Qed.

Lemma np_sort_In (x : pyfloat) (l : list pyfloat) :
  In x (np_sort l) -> In x l.
Proof.
  induction l as [|y l IH]; simpl; auto.
  intros I. apply np_insert_In in I. destruct I; auto.
Qed.

Lemma slice_last_In {A} (l : list A) (k : Z) (x : A) :
  last_item (slice_to l k) = Ok x -> In x l.
Proof.
  unfold last_item, of_option.
  destruct (nth_error _ _) as [y|] eqn:N; intros E; inversion E; subst.
  apply nth_error_In in N. unfold slice_to in N.
  destruct (0 <=? k)%Z;
    [rewrite <- (firstn_skipn (Z.to_nat k) l)
    |rewrite <- (firstn_skipn (List.length l - Z.to_nat (- k)) l)];
    apply in_or_app; auto.
Qed.

Lemma set_threshold_same (c : SafeLoraConfig) : set_threshold c (threshold c) = c.
Proof. destruct c; reflexivity. Qed.

Lemma number_policy_passes (configs configs' : SafeLoraConfig) (l : loc)
    (v : list tensor) (h h' : Heap) (finals : Finals) :
  select_layers_type configs = "number" ->
  select_layers configs l v h = (configs', h', Ok finals) ->
  exists h1 cos cos2,
    project_weights configs l v h = (h1, Ok (l, cos)) /\
    In (threshold configs') cos /\
    configs' = set_threshold configs (threshold configs') /\
    project_weights configs' l v h1 = (h', Ok (l, cos2)) /\
    finals = {| final_weights := None; final_wieghts := Some l |}.
Proof.
  intros T. unfold select_layers. rewrite T. simpl.
  destruct (project_weights configs l v h) as [h1 [[fw cos]|e]] eqn:P1;
    [|intros E; inversion E].
  destruct (last_item _) as [thrs|e] eqn:LI; [|intros E; inversion E].
  destruct (project_weights (set_threshold configs thrs) l v h1)
    as [h2 [[fw2 cos2]|e]] eqn:P2; intros E; inversion E; subst.
  pose proof (project_weights_returns_loc _ _ _ _ _ _ _ P1). subst fw.
  pose proof (project_weights_returns_loc _ _ _ _ _ _ _ P2). subst fw2.
  exists h1, cos, cos2. simpl. repeat split; auto.
  apply slice_last_In in LI. now apply np_sort_In.
Qed.

(** [X13] When the number policy returns, it has run two passes on the same
    mapping: the threshold it leaves in the configuration is one of the
    scores of the first pass, and the second pass starts from the mapping
    as the first pass left it, not from the adapter weights as loaded. *)
Theorem number_policy_two_passes (configs configs' : SafeLoraConfig) (l : loc)
    (v : list tensor) (h h' : Heap) (finals : Finals) :
  select_layers_type configs = "number" ->
  select_layers configs l v h = (configs', h', Ok finals) ->
  exists h1 cos cos2,
    project_weights configs l v h = (h1, Ok (l, cos)) /\
    In (threshold configs') cos /\
    configs' = set_threshold configs (threshold configs') /\
    project_weights configs' l v h1 = (h', Ok (l, cos2)) /\
    finals = {| final_weights := None; final_wieghts := Some l |}.
Proof.
  intros T S. exact (number_policy_passes configs configs' l v h h' finals T S).
Qed.

(** [X14] The number policy raises IndexError when zero layers are asked for, or
    when the mapping has no layer; the first pass has run by then. *)
Theorem number_policy_no_threshold_IndexError (configs : SafeLoraConfig)
    (l l' : loc) (v : list tensor) (h h1 : Heap) (cos : list pyfloat) :
  select_layers_type configs = "number" ->
  project_weights configs l v h = (h1, Ok (l', cos)) ->
  num_proj_layers configs = 0%Z \/ layers (h l) = [] ->
  select_layers configs l v h = (configs, h1, Raise IndexError).
Proof.
  intros T P1 Z. unfold select_layers. rewrite T. simpl. rewrite P1.
  rewrite slice_last_empty; auto.
  destruct Z as [Z|Z]; [now left|right].
  apply project_weights_scores in P1. destruct P1 as [L _].
  rewrite Z in L. destruct cos; [reflexivity | discriminate].
Qed.

Lemma select_layers_config (configs : SafeLoraConfig) (l : loc)
    (v : list tensor) (h : Heap) :
  let configs' := fst (fst (select_layers configs l v h)) in
  configs' = set_threshold configs (threshold configs') /\
  (select_layers_type configs <> "number" -> configs' = configs).
Proof.
  unfold select_layers.
  destruct (String.eqb (select_layers_type configs) "threshold") eqn:T.
  - destruct (project_weights configs l v h) as [h1 [[fw cos]|e]]; simpl;
      rewrite set_threshold_same; auto.
  - destruct (String.eqb (select_layers_type configs) "number") eqn:N.
    + apply String.eqb_eq in N.
      destruct (project_weights configs l v h) as [h1 [[fw cos]|e]]; simpl;
        [|rewrite set_threshold_same; auto].
      destruct (last_item _) as [thrs|e]; simpl;
        [|rewrite set_threshold_same; auto].
      destruct (project_weights _ l v h1) as [h2 [[fw2 cos2]|e]]; simpl;
        split; auto; congruence.
    + simpl. rewrite set_threshold_same. auto.
Qed.

(** [X16] [apply_safelora] writes to the configuration object it is given only
    under the number policy, and then only its [threshold]; every other
    field is as the caller set it, whether the call returns or raises. *)
Theorem apply_safelora_only_changes_threshold (configs : SafeLoraConfig)
    (w : World) :
  let configs' := fst (fst (apply_safelora configs w)) in
  configs' = set_threshold configs (threshold configs') /\
  (select_layers_type configs <> "number" -> configs' = configs).
Proof.
  unfold apply_safelora.
  destruct (load_inputs configs w) as [[v pw]|e]; simpl;
    [|rewrite set_threshold_same; auto].
  pose proof (select_layers_config configs peft_weights_loc v (fresh_heap pw)) as S.
  destruct (select_layers configs peft_weights_loc v (fresh_heap pw))
    as [[c' h'] [finals|e]]; simpl in *; auto.
  destruct (save_and_return c' w finals h'); simpl. exact S.
Qed.

Lemma load_adapter_keys (devices : string) (f : dict tensor) :
  forall pw, load_adapter devices f = Ok pw -> keys pw = keys f.
Proof.
  induction f as [|[name t] f IH]; intros pw E; simpl in E.
  - inversion E; reflexivity.
  - bind_inv E. inversion E; subst. simpl. now rewrite (IH _ Ea0).
Qed.

(** [X17] The adapter weights are loaded under their names, in the order of the
    file, each moved to the device and cast to float32 on "cpu" and to
    bfloat16 on any other device. *)
Theorem load_adapter_casts (devices : string) (f pw : dict tensor) :
  load_adapter devices f = Ok pw ->
  keys pw = keys f /\
  forall j name t, nth_error f j = Some (name, t) ->
    exists t0,
      to_device devices t = Ok t0 /\
      nth_error pw j =
        Some (name, if String.eqb devices "cpu" then to_float32 t0
                    else to_bfloat16 t0).
Proof.
  intros E. split; [exact (load_adapter_keys devices f pw E)|].
  revert pw E. induction f as [|[name0 t0] f IH]; intros pw E j name t N.
  - destruct j; discriminate.
  - simpl in E. bind_inv E. inversion E; subst.
    destruct j as [|j]; simpl in N.
    + inversion N; subst. exists a. auto.
    + apply (IH _ Ea0 _ _ _ N).
Qed.

(** [X18] [apply_safelora] returns a mapping only under the number policy and
    only on a configuration that carries a [saveWeights] attribute; the
    mapping then has the names of the adapter file, in order, and the
    adapter file is overwritten with it exactly when that attribute is
    true. *)
Theorem apply_safelora_returns_only_number_by_hand (configs configs' : SafeLoraConfig)
    (w w' : World) (d : dict tensor) :
  apply_safelora configs w = (configs', w', Ok d) ->
  select_layers_type configs = "number" /\
  exists flag p f,
    saveWeights configs = Present flag /\
    peft_file configs "adapter_model.safetensors" = Ok p /\
    safetensors w p = Ok f /\
    keys d = keys f /\
    w' = (if flag then save_file w d p else w).
Proof.
  unfold apply_safelora.
  destruct (load_inputs configs w) as [[v pw]|e] eqn:LI; [|discriminate].
  destruct (select_layers configs peft_weights_loc v (fresh_heap pw))
    as [[c' h'] [finals|e]] eqn:S; [|discriminate].
  destruct (save_and_return c' w finals h') as [w1 r] eqn:SR.
  intros E. inversion E; subst c' w1 r. clear E.
  unfold load_inputs in LI. bind_inv LI. inversion LI; subst a1 a4. clear LI.
  apply load_adapter_keys in Ea4.
  assert (N : select_layers_type configs = "number").
  { destruct (String.eqb (select_layers_type configs) "number") eqn:N;
      [now apply String.eqb_eq|].
    exfalso. revert S SR. unfold select_layers, save_and_return. rewrite N.
    destruct (String.eqb (select_layers_type configs) "threshold").
    - destruct (project_weights configs _ v _) as [h1 [[fw cos]|e]];
        intros S; inversion S; subst configs' h' finals; simpl.
      destruct (getattr (saveWeights configs)) as [[|]|]; simpl; discriminate.
    - intros S; inversion S; subst configs' h' finals; simpl.
      destruct (getattr (saveWeights configs)) as [[|]|]; simpl; discriminate. }
  split; [exact N|].
  destruct (number_policy_passes _ _ _ _ _ _ _ N S)
    as (h1 & cos & cos2 & P1 & _ & C & P2 & F).
  assert (K : keys (h' peft_weights_loc) = keys a3).
  { pose proof (project_weights_frame configs peft_weights_loc v (fresh_heap pw))
      as F1.
    pose proof (project_weights_frame configs' peft_weights_loc v h1) as F2.
    rewrite P1 in F1. rewrite P2 in F2. simpl in F1, F2.
    destruct F1 as [K1 _]. destruct F2 as [K2 _]. rewrite K2, K1. exact Ea4. }
  assert (SW : saveWeights configs' = saveWeights configs) by (rewrite C; reflexivity).
  assert (PP : peft_model_path configs' = peft_model_path configs)
    by (rewrite C; reflexivity).
  revert SR. unfold save_and_return. rewrite SW, F. simpl.
  unfold peft_file in *. rewrite PP.
  destruct (saveWeights configs) as [|flag]; simpl; [discriminate|].
  destruct (peft_model_path configs) as [pp|]; [|discriminate].
  inversion Ea2; subst a2.
  destruct flag; simpl; intros SR; inversion SR; subst w' d.
  - exists true, (path_join pp "adapter_model.safetensors"), a3. auto.
  - exists false, (path_join pp "adapter_model.safetensors"), a3. auto.
Qed.

End Policy.

(** *** The derived threshold is the k-th smallest score *)

Section KthSmallest.
Context `{Torch}.

Lemma np_insert_filter_length (f : pyfloat -> bool) (x : pyfloat)
    (l : list pyfloat) :
  List.length (filter f (np_insert x l)) = List.length (filter f (x :: l)).
Proof.
  induction l as [|y l IH]; simpl; auto.
  destruct (np_le x y); simpl; auto.
  destruct (f y); simpl; rewrite IH; simpl; destruct (f x); reflexivity.
Qed.

Lemma np_sort_filter_length (f : pyfloat -> bool) (l : list pyfloat) :
  List.length (filter f (np_sort l)) = List.length (filter f l).
Proof.
  induction l as [|x l IH]; simpl; auto.
  rewrite np_insert_filter_length. simpl.
  destruct (f x); simpl; now rewrite IH.
Qed.

Lemma np_sort_length (l : list pyfloat) :
  List.length (np_sort l) = List.length l.
Proof.
  pose proof (np_sort_filter_length (fun _ => true) l) as E.
  rewrite !filter_true in E by auto. exact E.
Qed.

Lemma np_insert_sorted (x : pyfloat) (l : list pyfloat) :
  (forall a b, In a (x :: l) -> In b (x :: l) -> le_true a b \/ le_true b a) ->
  (forall a b c, In a (x :: l) -> In b (x :: l) -> In c (x :: l) ->
     le_true a b -> le_true b c -> le_true a c) ->
  ForallOrdPairs le_true l -> ForallOrdPairs le_true (np_insert x l).
Proof.
  intros Tot Tr S. induction S as [|y l Fy S IH]; simpl.
  - repeat constructor.
  - assert (E0 : np_le x y = float_le x y).
    { unfold np_le, is_nan.
      assert (Rx : float_le x x = true)
        by (destruct (Tot x x); simpl; auto).
      assert (Ry : float_le y y = true)
        by (destruct (Tot y y); simpl; auto).
      rewrite Rx, Ry. simpl. apply orb_false_r. }
    rewrite E0. destruct (float_le x y) eqn:E.
    + constructor; [|constructor; auto].
      constructor; [exact E|].
      rewrite Forall_forall in *. intros z I.
      apply (Tr x y z); simpl; auto; now apply Fy.
    + constructor.
      * rewrite Forall_forall in *. intros z I.
        apply np_insert_In in I. destruct I as [->|I]; [|now apply Fy].
        destruct (Tot x y) as [L|L]; simpl; auto.
        unfold le_true in L. congruence.
      * apply IH.
        -- intros a b Ia Ib. apply Tot; simpl in *; tauto.
        -- intros a b c Ia Ib Ic. apply Tr; simpl in *; tauto.
Qed.

Lemma np_sort_sorted (l : list pyfloat) :
  (forall a b, In a l -> In b l -> le_true a b \/ le_true b a) ->
  (forall a b c, In a l -> In b l -> In c l ->
     le_true a b -> le_true b c -> le_true a c) ->
  ForallOrdPairs le_true (np_sort l).
Proof.
  induction l as [|x l IH]; intros Tot Tr; simpl; [constructor|].
  apply np_insert_sorted.
  - intros a b Ia Ib. apply Tot; simpl in *.
    + destruct Ia as [|Ia]; auto. apply np_sort_In in Ia. auto.
    + destruct Ib as [|Ib]; auto. apply np_sort_In in Ib. auto.
  - intros a b c Ia Ib Ic. apply Tr; simpl in *.
    + destruct Ia as [|Ia]; auto. apply np_sort_In in Ia. auto.
    + destruct Ib as [|Ib]; auto. apply np_sort_In in Ib. auto.
    + destruct Ic as [|Ic]; auto. apply np_sort_In in Ic. auto.
  - apply IH.
    + intros a b Ia Ib. apply Tot; simpl; auto.
    + intros a b c Ia Ib Ic. apply Tr; simpl; auto.
Qed.

Lemma sorted_positions (s : list pyfloat) :
  ForallOrdPairs le_true s ->
  forall j k x y, j < k -> nth_error s j = Some x -> nth_error s k = Some y ->
    le_true x y.
Proof.
  induction 1 as [|a s Fa S IH]; intros j k x y L Nj Nk.
  - destruct j; discriminate.
  - destruct k as [|k]; [lia|]. simpl in Nk. destruct j as [|j]; simpl in Nj.
    + inversion Nj; subst. rewrite Forall_forall in Fa.
      apply Fa. eapply nth_error_In; eauto.
    + apply (IH j k); auto. lia.
Qed.

Lemma filter_all (f : pyfloat -> bool) (l : list pyfloat) :
  (forall x, In x l -> f x = true) -> filter f l = l.
Proof.
  induction l as [|x l IH]; intros A; simpl; auto.
  rewrite (A x) by (now left). f_equal. apply IH. intros y I. apply A. now right.
Qed.

Lemma filter_none (f : pyfloat -> bool) (l : list pyfloat) :
  (forall x, In x l -> f x = false) -> filter f l = [].
Proof.
  induction l as [|x l IH]; intros A; simpl; auto.
  rewrite (A x) by (now left). apply IH. intros y I. apply A. now right.
Qed.

(** [X15] When the scores of the first pass are totally ordered by [<=] (none is
    a NaN) and at least one layer is asked for, the threshold the number
    policy derives is the k-th smallest of these scores, the largest one
    when k exceeds their number: at least min(k, n) scores are [<=] it and
    fewer than min(k, n) are strictly below it. *)
Theorem number_policy_threshold_is_kth_smallest (configs configs' : SafeLoraConfig)
    (l : loc) (v : list tensor) (h h1 h' : Heap) (finals : Finals)
    (cos : list pyfloat) :
  select_layers_type configs = "number" ->
  select_layers configs l v h = (configs', h', Ok finals) ->
  project_weights configs l v h = (h1, Ok (l, cos)) ->
  (1 <= num_proj_layers configs)%Z ->
  (forall a b, In a cos -> In b cos ->
     float_le a b = true \/ float_le b a = true) ->
  (forall a b c, In a cos -> In b cos -> In c cos ->
     float_le a b = true -> float_le b c = true -> float_le a c = true) ->
  let m := Nat.min (Z.to_nat (num_proj_layers configs)) (List.length cos) in
  let thrs := threshold configs' in
  In thrs cos /\
  m <= List.length (filter (fun c => float_le c thrs) cos) /\
  List.length (filter (fun c => negb (float_le thrs c)) cos) < m.
Proof.
  intros T Sel P1 K Tot Tr m thrs.
  assert (LI : last_item (slice_to (np_sort cos) (num_proj_layers configs))
               = Ok thrs).
  { revert Sel. unfold select_layers. rewrite T. simpl. rewrite P1.
    destruct (last_item _) as [t|e]; [|intros E; inversion E].
    destruct (project_weights _ l v h1) as [h2 [[fw2 cos2]|e]];
      intros E; inversion E; subst. reflexivity. }
  pose proof (np_sort_sorted cos Tot Tr) as Sorted.
  pose proof (np_sort_length cos) as Len.
  set (s := np_sort cos) in *.
  assert (N : nth_error s (m - 1) = Some thrs /\ 0 < m).
  { revert LI. unfold last_item, slice_to, of_option.
    replace (0 <=? num_proj_layers configs)%Z with true
      by (symmetry; apply Z.leb_le; lia).
    rewrite length_firstn, nth_error_firstn, Len. fold m.
    destruct (Nat.ltb (m - 1) (Z.to_nat (num_proj_layers configs)));
      [|discriminate].
    destruct (nth_error s (m - 1)) as [t|] eqn:N; intros E; inversion E; subst t.
    split; auto. apply (f_equal (@Some _)) in E.
    assert (m - 1 < List.length s) by (apply nth_error_Some; congruence).
    unfold m in *. lia. }
  destruct N as [N Mpos].
  assert (Refl : le_true thrs thrs).
  { assert (I : In thrs cos) by (apply np_sort_In; eapply nth_error_In; eauto).
    destruct (Tot thrs thrs I I); auto. }
  split; [apply np_sort_In; eapply nth_error_In; eauto|]. split.
  - rewrite <- (np_sort_filter_length _ cos). fold s.
    rewrite <- (firstn_skipn m s) at 1. rewrite filter_app, length_app.
    rewrite filter_all.
    + rewrite length_firstn, Len. fold m. lia.
    + intros x I. apply In_nth_error in I. destruct I as [j I].
      rewrite nth_error_firstn in I.
      destruct (Nat.ltb j m) eqn:J; [|discriminate]. apply Nat.ltb_lt in J.
      destruct (Nat.eq_dec j (m - 1)) as [->|D].
      * rewrite N in I. inversion I; subst. exact Refl.
      * apply (sorted_positions s Sorted j (m - 1)); auto. lia.
  - rewrite <- (np_sort_filter_length _ cos). fold s.
    rewrite <- (firstn_skipn (m - 1) s) at 1. rewrite filter_app, length_app.
    rewrite (filter_none _ (skipn (m - 1) s)).
    + simpl. pose proof (filter_length_le (fun c => negb (float_le thrs c))
                           (firstn (m - 1) s)) as F.
      rewrite length_firstn in F. lia.
    + intros x I. apply In_nth_error in I. destruct I as [j I].
      rewrite nth_error_skipn in I. apply negb_false_iff.
      destruct j as [|j].
      * rewrite Nat.add_0_r in I. rewrite N in I. inversion I; subst. exact Refl.
      * apply (sorted_positions s Sorted (m - 1) (m - 1 + S j)); auto. lia.
Qed.

End KthSmallest.

(* ================================================================== *)
(** ** The further properties on concrete stores *)
(* ================================================================== *)

Section ConcreteMore.
Import Exact Examples.

Lemma loader_suffix_example :
  SafetensorLoader_init world_two_shards (Some "base") = Ok two_shards_loader /\
  endswith (model_path two_shards_loader) "model.safetensors" = true.
Proof.
  split; [reflexivity|].
  apply (loader_model_path_ends_with_suffix world_two_shards (Some "base")
           two_shards_loader).
  reflexivity.
Defined.

Lemma sharded_weight_map_example :
  exists wm,
    weight_map two_shards_loader = Some wm /\
    keys wm = ["model.q_proj.weight"; "model.v_proj.weight"] /\
    forall name path, get wm name = Some path ->
      In path [path_join "base" shard1; path_join "base" shard2] /\
      In (name, rpartition_tail path)
        [("model.q_proj.weight", shard1); ("model.v_proj.weight", shard2)].
Proof.
  apply (sharded_weight_map_follows_index world_two_shards (Some "base")
           two_shards_loader
           [path_join "base" shard1; path_join "base" shard2]
           [("model.q_proj.weight", shard1); ("model.v_proj.weight", shard2)]);
    reflexivity.
Defined.

Lemma unresolved_shard_example :
  SafetensorLoader_init world_missing_shard (Some "base") = Raise KeyError.
Proof.
  apply (loader_init_unresolved_shard_KeyError world_missing_shard "base"
           [path_join "base" shard1]
           [("model.q_proj.weight", shard1); ("model.v_proj.weight", shard2)]
           "model.v_proj.weight" shard2).
  - reflexivity.
  - reflexivity.
  - reflexivity.
  - simpl. auto.
  - intros f [<-|[]]. vm_compute. discriminate.
Defined.

(** The directory [adapter] holds neither the file nor an index. *)
Lemma loader_init_exceptions_example :
  SafetensorLoader_init (world zeros (adapter B_7_24 B_5_12)) (Some "adapter")
    = Raise FileNotFoundError /\
  FileNotFoundError = FileNotFoundError.
Proof.
  split; [reflexivity|].
  apply (loader_init_exceptions (world zeros (adapter B_7_24 B_5_12))
           (Some "adapter") FileNotFoundError); reflexivity.
Defined.

Lemma indexed_shard_example :
  exists path,
    In path [path_join "base" shard1; path_join "base" shard2] /\
    In ("model.v_proj.weight", rpartition_tail path)
      [("model.q_proj.weight", shard1); ("model.v_proj.weight", shard2)] /\
    file_path_of two_shards_loader "model.v_proj.weight" = Ok path /\
    forall f t, safetensors world_two_shards path = Ok f ->
      get f "model.v_proj.weight" = Some t ->
      get_tensor world_two_shards two_shards_loader "model.v_proj.weight" = Ok t.
Proof.
  apply (get_tensor_reads_indexed_shard world_two_shards (Some "base")
           two_shards_loader
           [path_join "base" shard1; path_join "base" shard2]
           [("model.q_proj.weight", shard1); ("model.v_proj.weight", shard2)]
           "model.v_proj.weight").
  - reflexivity.
  - reflexivity.
  - reflexivity.
  - simpl. auto.
Defined.

Lemma unindexed_name_example :
  get_tensor world_two_shards two_shards_loader "model.k_proj.weight"
  = Raise KeyError.
Proof.
  apply (get_tensor_unindexed_name_KeyError world_two_shards world_two_shards
           (Some "base") two_shards_loader
           [path_join "base" shard1; path_join "base" shard2]
           [("model.q_proj.weight", shard1); ("model.v_proj.weight", shard2)]
           "model.k_proj.weight").
  - reflexivity.
  - reflexivity.
  - reflexivity.
  - simpl. intuition discriminate.
Defined.

Lemma prefix_set_example :
  get_tensor world_single_file (prefixed_loader (Some "base_model"))
    "base_model.model.q_proj.weight" = Ok D.
Proof.
  apply (proj1 (get_tensor_with_prefix_set world_single_file
                  (prefixed_loader (Some "base_model")) (Some "base_model")
                  "base_model.model.q_proj.weight" "base/model.safetensors"
                  (store D D) eq_refl eq_refl eq_refl eq_refl)).
Defined.

Lemma pairs_by_position_example :
  exists sl_base sl_align base_keys align_keys base align,
    SafetensorLoader_init (world zeros (adapter B_7_24 B_5_12)) (Some "base")
      = Ok sl_base /\
    SafetensorLoader_init (world zeros (adapter B_7_24 B_5_12)) (Some "aligned")
      = Ok sl_align /\
    weight_map_keys sl_base = Ok base_keys /\
    weight_map_keys sl_align = Ok align_keys /\
    select_names {| target_modules := Some ["q_proj"; "v_proj"] |} base_keys
      = Ok base /\
    select_names {| target_modules := Some ["q_proj"; "v_proj"] |} align_keys
      = Ok align /\
    List.length [P; P] = Nat.min (List.length base) (List.length align) /\
    forall j name_base name_align,
      nth_error base j = Some name_base ->
      nth_error align j = Some name_align ->
      exists vec,
        align_pair (world zeros (adapter B_7_24 B_5_12)) sl_base sl_align "cpu"
          name_base name_align = Ok vec /\
        nth_error [P; P] j = Some vec.
Proof.
  apply (get_aligned_matrix_pairs_by_position
           (world zeros (adapter B_7_24 B_5_12)) (Some "base") (Some "aligned")
           "cpu" {| target_modules := Some ["q_proj"; "v_proj"] |} [P; P]).
  reflexivity.
Defined.

Lemma scores_per_layer_example :
  List.length [Fin (7 # 25); Fin (19231 # 50000)] =
    List.length (layers (fresh_heap (adapter B_7_24 B_5_12) 0)) /\
  List.length (layers (fresh_heap (adapter B_7_24 B_5_12) 0))
    <= List.length [P; P].
Proof.
  destruct (project_weights_scores_per_layer (config "threshold" half 1 true)
              0 0 [P; P] (fresh_heap (adapter B_7_24 B_5_12))
              (fst (project_weights (config "threshold" half 1 true) 0 [P; P]
                      (fresh_heap (adapter B_7_24 B_5_12))))
              [Fin (7 # 25); Fin (19231 # 50000)] eq_refl) as (L & B & _).
  split; [exact L | exact B].
Defined.

(** One matrix for two layers: the first layer is projected, then the call
    raises. *)
Lemma raise_keeps_earlier_layers_example :
  snd (project_weights (config "threshold" half 1 true) 0 [P]
         (fresh_heap (adapter B_7_24 B_5_12))) = Raise IndexError /\
  get (fst (project_weights (config "threshold" half 1 true) 0 [P]
              (fresh_heap (adapter B_7_24 B_5_12))) 0) "q_proj.lora_B.weight"
    = Some (Matrix [[n 7]; [n 0]]).
Proof.
  destruct (project_weights_raise_keeps_earlier_layers
              (config "threshold" half 1 true) 0 [P]
              (fresh_heap (adapter B_7_24 B_5_12)) 1
              "v_proj.lora_A.weight" "v_proj.lora_B.weight" IndexError
              (adapter_wf B_7_24 B_5_12) eq_refl eq_refl eq_refl) as [R _].
  split; [exact R | reflexivity].
Defined.

Lemma too_few_matrices_example :
  snd (project_weights (config "threshold" half 1 true) 0 [P]
         (fresh_heap (adapter B_7_24 B_5_12))) = Raise IndexError.
Proof.
  apply (project_weights_too_few_matrices_IndexError
           (config "threshold" half 1 true) 0 [P]
           (fresh_heap (adapter B_7_24 B_5_12))).
  - apply adapter_wf.
  - simpl. lia.
  - reflexivity.
Defined.

Lemma two_passes_example :
  exists h1 cos cos2,
    project_weights (config "number" half 1 true) 0 [P; P]
      (fresh_heap (adapter B_7_24 B_5_12)) = (h1, Ok (0, cos)) /\
    In (Fin (7 # 25)) cos /\
    project_weights (set_threshold (config "number" half 1 true) (Fin (7 # 25)))
      0 [P; P] h1 =
      (snd (fst (select_layers (config "number" half 1 true) 0 [P; P]
                   (fresh_heap (adapter B_7_24 B_5_12)))), Ok (0, cos2)).
Proof.
  destruct (number_policy_two_passes (config "number" half 1 true)
              (set_threshold (config "number" half 1 true) (Fin (7 # 25)))
              0 [P; P] (fresh_heap (adapter B_7_24 B_5_12))
              (snd (fst (select_layers (config "number" half 1 true) 0 [P; P]
                           (fresh_heap (adapter B_7_24 B_5_12)))))
              {| final_weights := None; final_wieghts := Some 0 |}
              eq_refl eq_refl)
    as (h1 & cos & cos2 & P1 & I & _ & P2 & _).
  exists h1, cos, cos2. repeat split; assumption.
Defined.

Lemma no_threshold_example :
  select_layers (config "number" half 0 true) 0 [P; P]
    (fresh_heap (adapter B_7_24 B_5_12)) =
  (config "number" half 0 true,
   fst (project_weights (config "number" half 0 true) 0 [P; P]
          (fresh_heap (adapter B_7_24 B_5_12))),
   Raise IndexError).
Proof.
  apply (number_policy_no_threshold_IndexError (config "number" half 0 true)
           0 0 [P; P] (fresh_heap (adapter B_7_24 B_5_12))
           (fst (project_weights (config "number" half 0 true) 0 [P; P]
                   (fresh_heap (adapter B_7_24 B_5_12))))
           [Fin (7 # 25); Fin (19231 # 50000)]).
  - reflexivity.
  - reflexivity.
  - left. reflexivity.
Defined.

Lemma load_adapter_example :
  keys (adapter B_7_24 B_5_12) = keys (adapter B_7_24 B_5_12) /\
  forall j name t, nth_error (adapter B_7_24 B_5_12) j = Some (name, t) ->
    exists t0,
      to_device "cpu" t = Ok t0 /\
      nth_error (adapter B_7_24 B_5_12) j =
        Some (name, if String.eqb "cpu" "cpu" then to_float32 t0
                    else to_bfloat16 t0).
Proof.
  apply (load_adapter_casts "cpu" (adapter B_7_24 B_5_12) (adapter B_7_24 B_5_12)).
  reflexivity.
Defined.

(** The only way to a return value: the number policy and a [saveWeights]
    attribute set by hand; the adapter file then holds what is returned. *)
Lemma apply_safelora_by_hand_example :
  select_layers_type (config_by_hand "number" half 1 true) = "number" /\
  exists flag p f,
    saveWeights (config_by_hand "number" half 1 true) = Present flag /\
    peft_file (config_by_hand "number" half 1 true) "adapter_model.safetensors"
      = Ok p /\
    safetensors (world zeros (adapter B_7_24 B_5_12)) p = Ok f /\
    keys (adapter (Matrix [[n 7]; [n 0]]) (Matrix [[n 5]; [n 0]])) = keys f /\
    snd (fst (apply_safelora (config_by_hand "number" half 1 true)
                (world zeros (adapter B_7_24 B_5_12)))) =
      (if flag
       then save_file (world zeros (adapter B_7_24 B_5_12))
              (adapter (Matrix [[n 7]; [n 0]]) (Matrix [[n 5]; [n 0]])) p
       else world zeros (adapter B_7_24 B_5_12)).
Proof.
  apply (apply_safelora_returns_only_number_by_hand
           (config_by_hand "number" half 1 true)
           (set_threshold (config_by_hand "number" half 1 true) (Fin (7 # 25)))
           (world zeros (adapter B_7_24 B_5_12))
           (snd (fst (apply_safelora (config_by_hand "number" half 1 true)
                        (world zeros (adapter B_7_24 B_5_12)))))
           (adapter (Matrix [[n 7]; [n 0]]) (Matrix [[n 5]; [n 0]]))).
  reflexivity.
Defined.

Lemma kth_smallest_example :
  In (Fin (7 # 25)) [Fin (7 # 25); Fin (19231 # 50000)] /\
  1 <= List.length (filter (fun c => nle c (Fin (7 # 25)))
                      [Fin (7 # 25); Fin (19231 # 50000)]) /\
  List.length (filter (fun c => negb (nle (Fin (7 # 25)) c))
                 [Fin (7 # 25); Fin (19231 # 50000)]) < 1.
Proof.
  apply (number_policy_threshold_is_kth_smallest
           (config "number" half 1 true)
           (set_threshold (config "number" half 1 true) (Fin (7 # 25)))
           0 [P; P] (fresh_heap (adapter B_7_24 B_5_12))
           (fst (project_weights (config "number" half 1 true) 0 [P; P]
                   (fresh_heap (adapter B_7_24 B_5_12))))
           (snd (fst (select_layers (config "number" half 1 true) 0 [P; P]
                        (fresh_heap (adapter B_7_24 B_5_12)))))
           {| final_weights := None; final_wieghts := Some 0 |}
           [Fin (7 # 25); Fin (19231 # 50000)]).
  - reflexivity.
  - reflexivity.
  - reflexivity.
  - simpl. lia.
  - intros a b [<-|[<-|[]]] [<-|[<-|[]]]; vm_compute; auto.
  - intros a b c [<-|[<-|[]]] [<-|[<-|[]]] [<-|[<-|[]]]; vm_compute; auto.
Defined.

(** A NaN score is sorted after the numbers, wherever it enters. *)
Lemma np_sort_nan_last_example :
  np_sort [NaN; Fin (7 # 25)] = [Fin (7 # 25); NaN] /\
  np_sort [Fin (7 # 25); NaN] = [Fin (7 # 25); NaN] /\
  last_item (slice_to (np_sort [Fin (7 # 25); NaN]) 1) = Ok (Fin (7 # 25)).
Proof. vm_compute. repeat split; reflexivity. Qed.

End ConcreteMore.
